(** * Sparse matrices over a string-keyed store: a shallow embedding of
      [sparse_matrix.js] and the properties of its specification.

    Modelling conventions.

    - A JavaScript number that is an integer is modelled by an exact [Z]:
      the program is written for integer matrices.  The engine computes
      with doubles, and the model is the engine on the safe integers, those
      of magnitude at most 2^53 - 1: [parseInt] reads them and [String]
      prints them digit by digit, and a sum, difference or product of safe
      integers that is safe again is computed without rounding.  Beyond
      that range the engine rounds and the model does not; a property that
      rests on the value of a number therefore carries the range as a
      hypothesis ([safeInteger], [safeNumbers], [safeTriples] and the
      bounds on [magnitude] below), and says nothing outside it.  The two
      signed zeros are one value: the program only tests them against 0 and
      prints them, and both print as [0].  [NaN], which [parseInt] produces
      on a field without digits, and [undefined], which [Map.get] and array
      destructuring produce, are values of their own.
    - A string is a [string] of 8-bit code units; the white space of
      [trim] and [parseInt] is the part of the ECMAScript set below 256.
    - The property bag [store] of [Map] is an association list in
      insertion order.  This is the object of the code on ordinary keys
      ([ordinaryKey] below): an assignment to [__proto__] creates no
      property, a property named [hasOwnProperty] hides the method that
      [get], [has] and [forEach] call, and keys made of digits are
      enumerated first, in numeric order.  Every key the matrix writes has
      the shape [row,col] and thus contains a comma, so it is ordinary;
      the properties of [Map] itself carry the condition as a hypothesis.
    - A thrown exception is the [Throw] branch of [result].
    - [fromFile] takes the text of the file; the main program reads and
      writes through a file system whose calls return or throw. *)

From Stdlib Require Import ZArith List Bool Ascii String Lia Permutation.
From Stdlib Require Import Decimal DecimalString DecimalFacts DecimalPos DecimalN DecimalZ.
Import ListNotations.

#[local] Open Scope string_scope.
#[local] Open Scope Z_scope.

(** ** JavaScript values and the built-ins the program calls *)

Module JS.

(** The values the program computes with: integers, [NaN] and
    [undefined]. *)
Inductive value : Type :=
| Int (z : Z)
| NaN
| Undefined.

(** The decimal digits of an integer, with a minus sign if negative. *)
Definition decimal (z : Z) : string := NilEmpty.string_of_int (Z.to_int z).

(** A string without its trailing zeros. *)
Fixpoint stripZeros (s : string) : string :=
  match s with
  | "" => ""
  | String c r =>
      match stripZeros r with
      | "" => if Ascii.eqb c "0" then "" else String c ""
      | r' => String c r'
      end
  end.

(** The exponent notation of [Number::toString] for [n >= 10^21]: the
    digits of [n] without trailing zeros, a point after the first one,
    and the decimal exponent.  (The engine prints the shortest digits that
    identify the double; for an integer of at most 15 significant digits,
    such as 10^21, they are these.) *)
Definition exponential (n : Z) : string :=
  let ds := decimal n in
  let e := Z.of_nat (String.length ds) - 1 in
  match stripZeros ds with
  | "" => ""
  | String d "" => String d ("e+" ++ decimal e)
  | String d r => String d ("." ++ r ++ "e+" ++ decimal e)
  end.

(** [String(v)], as used by template literals: an integer below 10^21 in
    magnitude prints in plain decimal notation, a larger one in exponent
    notation. *)
Definition toString (v : value) : string :=
  match v with
  | Int z =>
      if Z.abs z <? 1000000000000000000000 then decimal z
      else if z <? 0 then "-" ++ exponential (- z)
      else exponential z
  | NaN => "NaN"
  | Undefined => "undefined"
  end.

(** [a + b], [a - b], [a * b] and [-a] on numbers; [undefined] converts
    to [NaN]. *)
Definition plus (a b : value) : value :=
  match a, b with Int x, Int y => Int (x + y) | _, _ => NaN end.

Definition minus (a b : value) : value :=
  match a, b with Int x, Int y => Int (x - y) | _, _ => NaN end.

Definition times (a b : value) : value :=
  match a, b with Int x, Int y => Int (x * y) | _, _ => NaN end.

Definition negate (a : value) : value :=
  match a with Int x => Int (- x) | _ => NaN end.

(** [a === b] and [a !== b]. *)
Definition strict_eq (a b : value) : bool :=
  match a, b with
  | Int x, Int y => x =? y
  | Undefined, Undefined => true
  | _, _ => false
  end.

Definition strict_neq (a b : value) : bool := negb (strict_eq a b).

(** [ToBoolean] and the short-circuit [a || b]. *)
Definition truthy (v : value) : bool :=
  match v with Int z => negb (z =? 0) | NaN => false | Undefined => false end.

Definition or (a b : value) : value := if truthy a then a else b.

(** *** Strings *)

Definition LF : ascii := "010"%char.

Definition isWhiteSpace (c : ascii) : bool :=
  match N_of_ascii c with
  | 9%N | 10%N | 11%N | 12%N | 13%N | 32%N | 160%N => true
  | _ => false
  end.

Fixpoint trimStart (s : string) : string :=
  match s with
  | "" => ""
  | String c r => if isWhiteSpace c then trimStart r else s
  end.

Fixpoint trimEnd (s : string) : string :=
  match s with
  | "" => ""
  | String c r =>
      match trimEnd r with
      | "" => if isWhiteSpace c then "" else String c ""
      | r' => String c r'
      end
  end.

(** [s.trim()] *)
Definition trim (s : string) : string := trimEnd (trimStart s).

(** [s.split(sep)] for a separator of one character. *)
Fixpoint split (sep : ascii) (s : string) : list string :=
  match s with
  | "" => [""]
  | String c r =>
      if Ascii.eqb c sep then "" :: split sep r
      else match split sep r with
           | h :: t => String c h :: t
           | [] => [String c ""]
           end
  end.

(** [lines.join(sep)] *)
Fixpoint join (sep : ascii) (l : list string) : string :=
  match l with
  | [] => ""
  | [s] => s
  | s :: rest => s ++ String sep (join sep rest)
  end.

(** [s.startsWith(p)] *)
Definition startsWith (s p : string) : bool := String.prefix p s.

Fixpoint drop (n : nat) (s : string) : string :=
  match n, s with
  | O, _ => s
  | S n', String _ r => drop n' r
  | S _, "" => ""
  end.

(** [s.replace(pat, rep)] for a string pattern: the first occurrence. *)
Fixpoint replace (s pat rep : string) : string :=
  if String.prefix pat s then rep ++ drop (String.length pat) s
  else match s with
       | "" => ""
       | String c r => String c (replace r pat rep)
       end.

Fixpoint indexOf_from (s : string) (c : ascii) (i : Z) : Z :=
  match s with
  | "" => -1
  | String d r => if Ascii.eqb d c then i else indexOf_from r c (i + 1)
  end.

(** [s.indexOf(c)] for a pattern of one character. *)
Definition indexOf (s : string) (c : ascii) : Z := indexOf_from s c 0.

Definition relativeIndex (len i : Z) : Z :=
  if i <? 0 then Z.max (len + i) 0 else Z.min i len.

(** [s.slice(start, end)] *)
Definition slice (s : string) (start end_ : Z) : string :=
  let len := Z.of_nat (String.length s) in
  let from := relativeIndex len start in
  let to := relativeIndex len end_ in
  substring (Z.to_nat from) (Z.to_nat (Z.max (to - from) 0)) s.

(** *** Numeric conversions *)

Definition digitValue (c : ascii) : option Z :=
  let n := Z.of_N (N_of_ascii c) in
  if (48 <=? n) && (n <=? 57) then Some (n - 48)
  else if (97 <=? n) && (n <=? 122) then Some (n - 87)
  else if (65 <=? n) && (n <=? 90) then Some (n - 55)
  else None.

(** The longest prefix of radix digits, read most significant first;
    [None] while no digit has been read. *)
Fixpoint parseDigits (radix : Z) (s : string) (acc : option Z) : option Z :=
  match s with
  | "" => acc
  | String c r =>
      match digitValue c with
      | Some d =>
          if d <? radix
          then parseDigits radix r
                 (Some (match acc with Some a => a * radix + d | None => d end))
          else acc
      | None => acc
      end
  end.

(** [parseInt(s)] with no radix argument. *)
Definition parseInt (s : string) : value :=
  let s1 := trimStart s in
  let '(sign, s2) :=
    match s1 with
    | String "-" r => (-1, r)
    | String "+" r => (1, r)
    | _ => (1, s1)
    end in
  let '(radix, s3) :=
    match s2 with
    | String "0" (String "x" r) => (16, r)
    | String "0" (String "X" r) => (16, r)
    | _ => (10, s2)
    end in
  match parseDigits radix s3 None with
  | Some n => Int (sign * n)
  | None => NaN
  end.

(** A string made of radix digits only, read as a number. *)
Fixpoint wholeDigits (radix : Z) (s : string) (acc : option Z) : option Z :=
  match s with
  | "" => acc
  | String c r =>
      match digitValue c with
      | Some d =>
          if d <? radix
          then wholeDigits radix r
                 (Some (match acc with Some a => a * radix + d | None => d end))
          else None
      | None => None
      end
  end.

Definition ofDigits (radix : Z) (s : string) : value :=
  match wholeDigits radix s None with Some n => Int n | None => NaN end.

Definition isDecimalDigit (c : ascii) : bool :=
  match digitValue c with Some d => d <? 10 | None => false end.

(** The longest prefix of decimal digits, and what follows it. *)
Fixpoint spanDigits (s : string) : string * string :=
  match s with
  | "" => ("", "")
  | String c r =>
      if isDecimalDigit c
      then let '(d, rest) := spanDigits r in (String c d, rest)
      else ("", s)
  end.

Definition digitsValue (s : string) : Z :=
  match wholeDigits 10 s None with Some n => n | None => 0 end.

(** [m * 10^e] when it is an integer. *)
Definition scale (m e : Z) : value :=
  if 0 <=? e then Int (m * 10 ^ e)
  else if m mod 10 ^ (- e) =? 0 then Int (m / 10 ^ (- e))
  else NaN.

(** An unsigned [StrDecimalLiteral]: digits, an optional fraction and an
    optional exponent. *)
Definition decimalLiteral (t : string) : value :=
  let '(ip, r1) := spanDigits t in
  let '(fp, r2) :=
    match r1 with
    | String "." r => spanDigits r
    | _ => ("", r1)
    end in
  let frac := Z.of_nat (String.length fp) in
  if String.eqb ip "" && String.eqb fp "" then NaN
  else
    match r2 with
    | "" => scale (digitsValue (ip ++ fp)) (- frac)
    | String c r3 =>
        if Ascii.eqb c "e" || Ascii.eqb c "E"
        then
          let '(esign, r4) :=
            match r3 with
            | String "-" r => (-1, r)
            | String "+" r => (1, r)
            | _ => (1, r3)
            end in
          let '(ed, r5) := spanDigits r4 in
          if String.eqb ed "" || negb (String.eqb r5 "") then NaN
          else scale (digitsValue (ip ++ fp)) (esign * digitsValue ed - frac)
        else NaN
    end.

(** [Number(s)], the conversion [StringToNumber]: white space only is 0;
    an unsigned [0x], [0o] or [0b] literal; an optionally signed decimal
    literal.  A literal that denotes a fraction, and [Infinity], lie
    outside [value] and are mapped to [NaN]; no key written by
    [setElement] from integers has such a component. *)
Definition Number (s : string) : value :=
  match trim s with
  | "" => Int 0
  | String "0" (String "x" r) => ofDigits 16 r
  | String "0" (String "X" r) => ofDigits 16 r
  | String "0" (String "o" r) => ofDigits 8 r
  | String "0" (String "O" r) => ofDigits 8 r
  | String "0" (String "b" r) => ofDigits 2 r
  | String "0" (String "B" r) => ofDigits 2 r
  | String "-" r => negate (decimalLiteral r)
  | String "+" r => decimalLiteral r
  | t => decimalLiteral t
  end.

(** *** Exceptions *)

Inductive exn : Type :=
| Error (message : string)
| TypeError.

Inductive result (A : Type) : Type :=
| Ok (a : A)
| Throw (e : exn).

Arguments Ok {A} a.
Arguments Throw {A} e.

Definition bind {A B : Type} (r : result A) (k : A -> result B) : result B :=
  match r with Ok a => k a | Throw e => Throw e end.

End JS.

Import JS.

Notation "x <- r ;; k" := (JS.bind r (fun x => k))
  (at level 61, r at next level, right associativity).

(** ** [class Map]: a property bag used as a dictionary *)

Module Map.

(** [this.store]: the own properties, in insertion order. *)
Definition t : Type := list (string * value).

(** [constructor()] *)
Definition empty : t := [].

(** [set(key, value)]: [this.store[key] = value] overwrites an existing
    property where it stands and appends a new one. *)
Fixpoint set (store : t) (key : string) (v : value) : t :=
  match store with
  | [] => [(key, v)]
  | (k, w) :: rest =>
      if String.eqb k key then (k, v) :: rest
      else (k, w) :: set rest key v
  end.

(** [has(key)] *)
Fixpoint has (store : t) (key : string) : bool :=
  match store with
  | [] => false
  | (k, _) :: rest => if String.eqb k key then true else has rest key
  end.

(** [get(key)]: the value, or [undefined] if not found. *)
Fixpoint get (store : t) (key : string) : value :=
  match store with
  | [] => Undefined
  | (k, w) :: rest => if String.eqb k key then w else get rest key
  end.

(** [forEach(callback)]: the callback is run on every pair in store order;
    what it mutates outside the map is threaded through as [acc]. *)
Definition forEach {S : Type} (store : t)
    (callback : value -> string -> S -> S) (acc : S) : S :=
  fold_left (fun st kv => callback (snd kv) (fst kv) st) store acc.

End Map.

(** ** [class Matrix] *)

Module SparseMatrix.

Record Matrix : Type := mkMatrix {
  numRows : value;
  numCols : value;
  elements : Map.t
}.

(** [constructor(numRows, numCols)] *)
Definition new (numRows numCols : value) : Matrix :=
  mkMatrix numRows numCols Map.empty.

(** The template literal [`${row},${col}`]. *)
Definition key (row col : value) : string :=
  toString row ++ "," ++ toString col.

(** [setElement(row, col, value)] *)
Definition setElement (this : Matrix) (row col v : value) : Matrix :=
  if strict_neq v (Int 0)
  then mkMatrix (numRows this) (numCols this)
                (Map.set (elements this) (key row col) v)
  else this.

(** [getElement(row, col)] *)
Definition getElement (this : Matrix) (row col : value) : value :=
  JS.or (Map.get (elements this) (key row col)) (Int 0).

(** [const [row, col] = key.split(',').map(Number)]: a missing second
    component destructures to [undefined]. *)
Definition rowcol (k : string) : value * value :=
  match map Number (split "," k) with
  | row :: col :: _ => (row, col)
  | [row] => (row, Undefined)
  | [] => (Undefined, Undefined)
  end.

Definition dimensionError (operation : string) : exn :=
  Error ("Matrix dimensions do not match for " ++ operation).

(** [add(other)] *)
Definition add (this other : Matrix) : result Matrix :=
  if strict_neq (numRows this) (numRows other)
     || strict_neq (numCols this) (numCols other)
  then Throw (dimensionError "addition")
  else
    let result := new (numRows this) (numCols this) in
    let result :=
      Map.forEach (elements this) (fun v k result =>
        let '(row, col) := rowcol k in
        let sum := plus v (getElement other row col) in
        setElement result row col sum) result in
    let result :=
      Map.forEach (elements other) (fun v k result =>
        if negb (Map.has (elements result) k)
        then let '(row, col) := rowcol k in setElement result row col v
        else result) result in
    Ok result.

(** [subtract(other)] *)
Definition subtract (this other : Matrix) : result Matrix :=
  if strict_neq (numRows this) (numRows other)
     || strict_neq (numCols this) (numCols other)
  then Throw (dimensionError "subtraction")
  else
    let result := new (numRows this) (numCols this) in
    let result :=
      Map.forEach (elements this) (fun v k result =>
        let '(row, col) := rowcol k in
        let diff := minus v (getElement other row col) in
        setElement result row col diff) result in
    let result :=
      Map.forEach (elements other) (fun v k result =>
        if negb (Map.has (elements result) k)
        then let '(row, col) := rowcol k in
             setElement result row col (negate v)
        else result) result in
    Ok result.

(** [multiply(other)] *)
Definition multiply (this other : Matrix) : result Matrix :=
  if strict_neq (numCols this) (numRows other)
  then Throw (dimensionError "multiplication")
  else
    let result := new (numRows this) (numCols other) in
    let result :=
      Map.forEach (elements this) (fun valueA keyA result =>
        let '(rowA, colA) := rowcol keyA in
        Map.forEach (elements other) (fun valueB keyB result =>
          let '(rowB, colB) := rowcol keyB in
          if strict_eq colA rowB
          then
            let product := times valueA valueB in
            let currentVal := getElement result rowA colB in
            setElement result rowA colB (plus currentVal product)
          else result) result) result in
    Ok result.

Definition formatError : exn := Error "Invalid file format".

(** [extractNumber(line, prefix)]; [line] is [None] for the [undefined]
    that indexing past the end of [lines] yields, on which the call of
    [startsWith] raises a [TypeError]. *)
Definition extractNumber (line : option string) (prefix : string)
    : result value :=
  match line with
  | None => Throw TypeError
  | Some line =>
      if negb (startsWith line prefix) then Throw formatError
      else Ok (parseInt (trim (replace line prefix "")))
  end.

(** [extractValues(line)] *)
Definition extractValues (line : string) : result (value * value * value) :=
  let startIndex := indexOf line "(" in
  let endIndex := indexOf line ")" in
  if (startIndex =? -1) || (endIndex =? -1) then Throw formatError
  else
    let values := split "," (slice line (startIndex + 1) endIndex) in
    match values with
    | [v0; v1; v2] =>
        let row := parseInt (trim v0) in
        let col := parseInt (trim v1) in
        let v := parseInt (trim v2) in
        Ok (row, col, v)
    | _ => Throw formatError
    end.

(** The loop of [fromFile] over [lines[2..]]. *)
Fixpoint parseElements (lines : list string) (matrix : Matrix)
    : result Matrix :=
  match lines with
  | [] => Ok matrix
  | l :: rest =>
      let line := trim l in
      if String.eqb line "" then parseElements rest matrix
      else
        match extractValues line with
        | Ok (row, col, v) => parseElements rest (setElement matrix row col v)
        | Throw e => Throw e
        end
  end.

(** [fromFile(filePath)], from the text [content] that reading the file
    returned. *)
Definition fromFile (content : string) : result Matrix :=
  let lines := split LF (trim content) in
  numRows <- extractNumber (nth_error lines 0) "rows=" ;;
  numCols <- extractNumber (nth_error lines 1) "cols=" ;;
  let matrix := new numRows numCols in
  parseElements (skipn 2 lines) matrix.

(** The text the main program writes for [result]: the two header lines
    and one line per stored element, joined by line feeds.  The
    components of a key are spliced in as strings; a missing second
    component prints as [undefined]. *)
Definition elementLine (kv : string * value) : string :=
  let parts := split "," (fst kv) in
  let row := match parts with r :: _ => r | [] => "undefined" end in
  let col := match parts with _ :: c :: _ => c | _ => "undefined" end in
  "(" ++ row ++ ", " ++ col ++ ", " ++ toString (snd kv) ++ ")".

Definition serialize (result : Matrix) : string :=
  let resultLines :=
    List.app
      ["rows=" ++ toString (numRows result);
       "cols=" ++ toString (numCols result)]
      (map elementLine (elements result)) in
  join LF resultLines.

End SparseMatrix.

Import SparseMatrix.

(** ** The main program *)

Module Program.

(** The file system as the program meets it: each call returns or
    throws. *)
Record fileSystem : Type := mkFileSystem {
  readFileSync : string -> result string;
  writeFileSync : string -> string -> result unit
}.

(** How a run ends: with [process.exit(status)] after a message was
    printed; at the end of the script, after the result file was written
    and a message printed; or with an exception nothing catches. *)
Inductive outcome : Type :=
| Exit (status : Z) (printed : string)
| Written (path content printed : string)
| Uncaught (e : exn).

Definition usage : string :=
  String LF "Usage: node sparse_matrix <operation> <first_matrix_file_path> <second_matrix_file_path>"
  ++ String LF "".

Definition invalidOperation : string :=
  String LF "Invalid Operation. Allowed operations are add, subtract, and multiply.".

(** [Matrix.fromFile(filePath)], the read included. *)
Definition fromPath (fs : fileSystem) (filePath : string) : result Matrix :=
  content <- readFileSync fs filePath ;;
  fromFile content.

(** The end of the script: the result is written to
    [matrix_<operation>_result.txt] and the path is reported. *)
Definition writeResult (fs : fileSystem) (operation : string)
    (result : Matrix) : outcome :=
  let outputFilePath := "matrix_" ++ operation ++ "_result.txt" in
  match writeFileSync fs outputFilePath (serialize result) with
  | Throw e => Uncaught e
  | Ok _ =>
      Written outputFilePath (serialize result)
              ("Result written to " ++ outputFilePath)
  end.

(** The script run with [process.argv = argv]. *)
Definition main (argv : list string) (fs : fileSystem) : outcome :=
  if (List.length argv <? 5)%nat then Exit 1 usage
  else
    let operation := nth 2 argv "" in
    let filePath1 := nth 3 argv "" in
    let filePath2 := nth 4 argv "" in
    let computed :=
      if String.eqb operation "add" then
        Some (matrixA <- fromPath fs filePath1 ;;
              matrixB <- fromPath fs filePath2 ;;
              add matrixA matrixB)
      else if String.eqb operation "subtract" then
        Some (matrixC <- fromPath fs filePath1 ;;
              matrixD <- fromPath fs filePath2 ;;
              subtract matrixC matrixD)
      else if String.eqb operation "multiply" then
        Some (matrixE <- fromPath fs filePath1 ;;
              matrixF <- fromPath fs filePath2 ;;
              multiply matrixE matrixF)
      else None in
    match computed with
    | None => Exit 1 invalidOperation
    | Some (Throw e) => Uncaught e
    | Some (Ok result) => writeResult fs operation result
    end.

End Program.

Import Program.

(** * Vocabulary of the specification *)

(** ** Errors *)

(** [DimensionMismatch]: the error the three operations raise on operands
    of incompatible shape. *)
Definition DimensionMismatch (e : exn) : Prop :=
  exists operation, e = dimensionError operation.

(** [FormatError]: the error the parser raises on a malformed line. *)
Definition FormatError (e : exn) : Prop := e = formatError.

(** A computation throws an error of the given kind. *)
Definition failsWith {A : Type} (r : result A) (kind : exn -> Prop) : Prop :=
  exists e, r = Throw e /\ kind e.

(** ** Matrices and their entries *)

(** No entry of the mapping has value 0. *)
Definition noZeroEntry (store : Map.t) : Prop :=
  Forall (fun kv => snd kv <> Int 0) store.

(** The stored elements as (row, col, value) triples, the key decoded as
    the operations decode it. *)
Definition entries (m : Matrix) : list (value * value * value) :=
  map (fun kv => (fst (rowcol (fst kv)), snd (rowcol (fst kv)), snd kv))
      (elements m).

(** The value at a position as an integer, for stating arithmetic. *)
Definition entryZ (m : Matrix) (r c : Z) : Z :=
  match getElement m (Int r) (Int c) with Int z => z | _ => 0 end.

(** Sum over [k < n] of [a(r,k) * b(k,c)]. *)
Fixpoint dotProduct (a b : Matrix) (r c : Z) (n : nat) : Z :=
  match n with
  | O => 0
  | S k => dotProduct a b r c k + entryZ a r (Z.of_nat k) * entryZ b (Z.of_nat k) c
  end.

(** [m] built by the constructor and a sequence of [setElement] calls. *)
Definition build (rows cols : Z) (l : list (Z * Z * Z)) : Matrix :=
  fold_left (fun m e => let '(r, c, v) := e in
                        setElement m (Int r) (Int c) (Int v))
            l (new (Int rows) (Int cols)).

(** The matrices A and B of the scenario of the specification. *)
Definition scenarioA : Matrix := build 2 2 [(0, 0, 5); (1, 1, 3)].
Definition scenarioB : Matrix := build 2 2 [(0, 0, 2); (0, 1, 4)].

(** Matrices obtained through the public interface. *)
Inductive Produced : Matrix -> Prop :=
| Produced_new (rows cols : value) : Produced (new rows cols)
| Produced_setElement (m : Matrix) (row col v : value) :
    Produced m -> Produced (setElement m row col v)
| Produced_fromFile (content : string) (m : Matrix) :
    fromFile content = Ok m -> Produced m
| Produced_add (a b m : Matrix) : add a b = Ok m -> Produced m
| Produced_subtract (a b m : Matrix) : subtract a b = Ok m -> Produced m
| Produced_multiply (a b m : Matrix) : multiply a b = Ok m -> Produced m.

(** ** The representation invariant *)

(** Whether a value is a number, NaN included. *)
Definition isNumber (v : value) : bool :=
  match v with Int _ | NaN => true | Undefined => false end.

(** A number that prints in plain notation: NaN, or an integer below
    10^21 in magnitude. *)
Definition plainNumber (v : value) : bool :=
  match v with
  | Int z => Z.abs z <? 1000000000000000000000
  | NaN => true
  | Undefined => false
  end.

(** A key is canonical when it is the key [setElement] writes for the
    numbers it decodes to, and these print in plain notation. *)
Definition canonicalKey (k : string) : bool :=
  let rc := rowcol k in
  plainNumber (fst rc) && plainNumber (snd rc)
  && String.eqb (key (fst rc) (snd rc)) k.

(** No key is stored twice (an object has one property per name). *)
Fixpoint distinctKeys (store : Map.t) : bool :=
  match store with
  | [] => true
  | (k, _) :: rest => negb (Map.has rest k) && distinctKeys rest
  end.

(** The representation invariant: the dimensions and the stored values
    are numbers, no key is stored twice, and every key is canonical. *)
Definition wellFormed (m : Matrix) : bool :=
  isNumber (numRows m) && isNumber (numCols m)
  && distinctKeys (elements m)
  && forallb (fun kv => canonicalKey (fst kv) && isNumber (snd kv))
             (elements m).

(** The dimensions and the stored values print in plain notation. *)
Definition plainNotation (m : Matrix) : bool :=
  plainNumber (numRows m) && plainNumber (numCols m)
  && forallb (fun kv => plainNumber (snd kv)) (elements m).

(** All stored values are integers. *)
Definition integral (m : Matrix) : bool :=
  forallb (fun kv => match snd kv with Int _ => true | _ => false end)
          (elements m).

(** ** Text *)

(** The lines of a file, as [fromFile] splits them. *)
Definition linesOf (content : string) : list string := split LF (trim content).

(** Whether a character occurs in a string, and how often. *)
Fixpoint occurs (c : ascii) (s : string) : bool :=
  match s with
  | "" => false
  | String d r => Ascii.eqb d c || occurs c r
  end.

Fixpoint count (c : ascii) (s : string) : nat :=
  match s with
  | "" => O
  | String d r => if Ascii.eqb d c then S (count c r) else count c r
  end.

(** Every character of a string satisfies [p]. *)
Fixpoint allChars (p : ascii -> bool) (s : string) : bool :=
  match s with
  | "" => true
  | String c r => p c && allChars p r
  end.

(** Neither white space nor one of the delimiters of the file format. *)
Definition plainChar (c : ascii) : bool :=
  negb (isWhiteSpace c || Ascii.eqb c "," || Ascii.eqb c "(" || Ascii.eqb c ")").

Definition plain (s : string) : bool := allChars plainChar s.

(** The line [(rs, cs, vs)] of the file format. *)
Definition tupleLine (rs cs vs : string) : string :=
  "(" ++ rs ++ ", " ++ cs ++ ", " ++ vs ++ ")".

(** The number a run of decimal digits denotes, continuing from [acc]. *)
Fixpoint uintValue (d : uint) (acc : Z) : Z :=
  match d with
  | Nil => acc
  | D0 l => uintValue l (acc * 10 + 0)
  | D1 l => uintValue l (acc * 10 + 1)
  | D2 l => uintValue l (acc * 10 + 2)
  | D3 l => uintValue l (acc * 10 + 3)
  | D4 l => uintValue l (acc * 10 + 4)
  | D5 l => uintValue l (acc * 10 + 5)
  | D6 l => uintValue l (acc * 10 + 6)
  | D7 l => uintValue l (acc * 10 + 7)
  | D8 l => uintValue l (acc * 10 + 8)
  | D9 l => uintValue l (acc * 10 + 9)
  end.

(** ** The two passes of [add] and [subtract] *)

(** [setElement] and [getElement] at a key rather than at a position. *)
Definition setAt (m : Matrix) (k : string) (v : value) : Matrix :=
  if strict_neq v (Int 0)
  then mkMatrix (numRows m) (numCols m) (Map.set (elements m) k v)
  else m.

Definition valueAt (m : Matrix) (k : string) : value :=
  JS.or (Map.get (elements m) k) (Int 0).

(** The callbacks of the two [forEach] loops of [add] and [subtract];
    [f] combines an entry with [other]'s and [g] transforms the entries
    copied from the second operand. *)
Definition firstPass (other : Matrix) (f : value -> value -> value)
    (v : value) (k : string) (result : Matrix) : Matrix :=
  let '(row, col) := rowcol k in
  setElement result row col (f v (getElement other row col)).

Definition secondPass (g : value -> value)
    (v : value) (k : string) (result : Matrix) : Matrix :=
  if negb (Map.has (elements result) k)
  then let '(row, col) := rowcol k in setElement result row col (g v)
  else result.

(** ** Further vocabulary *)

(** A sequence of [set] calls. *)
Definition setAll (store : Map.t) (l : list (string * value)) : Map.t :=
  fold_left (fun s kv => Map.set s (fst kv) (snd kv)) l store.

(** The value of the last pair of [l] written under [k]. *)
Definition lastWrite (l : list (string * value)) (k : string) : value :=
  match find (fun kv => String.eqb (fst kv) k) (List.rev l) with
  | Some kv => snd kv
  | None => Undefined
  end.

(** The text of a matrix file with the given header and element lines. *)
Definition matrixText (rows cols : Z) (l : list (Z * Z * Z)) : string :=
  join LF
    (("rows=" ++ toString (Int rows)) :: ("cols=" ++ toString (Int cols))
     :: map (fun e => let '(r, c, v) := e in
                      tupleLine (toString (Int r)) (toString (Int c))
                                (toString (Int v))) l).

(** The numbers of a header and of a list of element lines print in
    plain notation. *)
Definition plainTriples (rows cols : Z) (l : list (Z * Z * Z)) : bool :=
  plainNumber (Int rows) && plainNumber (Int cols)
  && forallb (fun e => let '(r, c, v) := e in
                       plainNumber (Int r) && plainNumber (Int c)
                       && plainNumber (Int v)) l.

(** A file system that holds two files and accepts every write. *)
Definition twoFiles (path1 content1 path2 content2 : string) : fileSystem :=
  mkFileSystem
    (fun path => if String.eqb path path1 then Ok content1
                 else if String.eqb path path2 then Ok content2
                 else Throw (Error "ENOENT: no such file or directory"))
    (fun _ _ => Ok tt).

(** The entries that a list of element lines names, in file order. *)
Definition entriesOf (l : list (Z * Z * Z)) : Map.t :=
  map (fun e => let '(r, c, v) := e in (key (Int r) (Int c), Int v)) l.

(** The value of the last line of [l] for the position [(r, c)] that is
    not 0, and 0 if there is none. *)
Definition lastNonZero (l : list (Z * Z * Z)) (r c : Z) : Z :=
  match find (fun e => let '(r', c', v) := e in
                       (r' =? r) && (c' =? c) && negb (v =? 0))
             (List.rev l) with
  | Some (_, _, v) => v
  | None => 0
  end.

(** ** The product *)

(** All stored values are positive integers. *)
Definition positiveEntries (m : Matrix) : bool :=
  forallb (fun kv => match snd kv with Int z => 0 <? z | _ => false end)
          (elements m).

(** Every stored column index is an integer from 0 to [n - 1]. *)
Definition columnsBelow (n : Z) (m : Matrix) : bool :=
  forallb (fun kv => match snd (rowcol (fst kv)) with
                     | Int j => (0 <=? j) && (j <? n)
                     | _ => false
                     end)
          (elements m).

(** The inner callback of [multiply], for an entry of [this] at
    [(rowA, colA)] with value [valueA]. *)
Definition accumulate (rowA colA valueA : value)
    (valueB : value) (keyB : string) (result : Matrix) : Matrix :=
  let '(rowB, colB) := rowcol keyB in
  if strict_eq colA rowB
  then
    let product := times valueA valueB in
    let currentVal := getElement result rowA colB in
    setElement result rowA colB (plus currentVal product)
  else result.

Definition intOf (v : value) : Z := match v with Int z => z | _ => 0 end.

(** What a pair of stored entries adds to the key [k] of the product. *)
Definition contribution (k : string) (ea eb : string * value) : Z :=
  if strict_eq (snd (rowcol (fst ea))) (fst (rowcol (fst eb)))
     && String.eqb (key (fst (rowcol (fst ea))) (snd (rowcol (fst eb)))) k
  then intOf (snd ea) * intOf (snd eb)
  else 0.

Fixpoint sumOver {A : Type} (f : A -> Z) (l : list A) : Z :=
  match l with
  | [] => 0
  | x :: r => f x + sumOver f r
  end.

Fixpoint sumTo (h : nat -> Z) (n : nat) : Z :=
  match n with
  | O => 0
  | S k => sumTo h k + h k
  end.

(** The running total that [multiply] keeps at one key: [s] becomes
    [s + p], unless that sum is 0, which [setElement] does not write, so
    that [s] stays. *)
Definition accumulated (s p : Z) : Z := if s + p =? 0 then s else s + p.

Definition runningTotal (l : list Z) : Z := fold_left accumulated l 0.

(** What the pairs of stored entries add to the key [k], in the order in
    which the two nested loops of [multiply] visit them; a pair that does
    not meet at [k] adds 0. *)
Definition productsAt (k : string) (a b : Matrix) : list Z :=
  flat_map (fun ea => map (contribution k ea) (elements b)) (elements a).

(** ** Where the model is the engine *)

(** [Number.MAX_SAFE_INTEGER], 2^53 - 1. *)
Definition maxSafeInteger : Z := 9007199254740991.

Definition safeInteger (z : Z) : bool := Z.abs z <=? maxSafeInteger.

Definition safeNumber (v : value) : bool :=
  match v with
  | Int z => safeInteger z
  | NaN => true
  | Undefined => false
  end.

(** The dimensions, the indices and the values of a matrix are safe. *)
Definition safeNumbers (m : Matrix) : bool :=
  safeNumber (numRows m) && safeNumber (numCols m)
  && forallb (fun kv => safeNumber (fst (rowcol (fst kv)))
                        && safeNumber (snd (rowcol (fst kv)))
                        && safeNumber (snd kv))
             (elements m).

(** The numbers of a header and of a list of element lines are safe. *)
Definition safeTriples (rows cols : Z) (l : list (Z * Z * Z)) : bool :=
  safeInteger rows && safeInteger cols
  && forallb (fun e => let '(r, c, v) := e in
                       safeInteger r && safeInteger c && safeInteger v) l.

(** The sum of the magnitudes of the stored values, and of the values of
    a list of element lines.  It bounds every entry; the sum of two such
    bounds is a bound on every sum and difference of entries, and their
    product is a bound on every product of entries and on every running
    total of such products. *)
Definition magnitude (m : Matrix) : Z :=
  sumOver (fun kv => Z.abs (intOf (snd kv))) (elements m).

Definition magnitudeOf (l : list (Z * Z * Z)) : Z :=
  sumOver (fun e => Z.abs (snd e)) l.

(** A key that the object behind [Map] treats as an ordinary own
    property: it is not [__proto__], not [hasOwnProperty], and not made of
    digits only. *)
Definition ordinaryKey (k : string) : bool :=
  negb (String.eqb k "__proto__") && negb (String.eqb k "hasOwnProperty")
  && negb (allChars isDecimalDigit k).

Definition ordinaryKeys (l : list (string * value)) : bool :=
  forallb (fun kv => ordinaryKey (fst kv)) l.

(** * Properties *)

(** ** Values *)

Lemma strict_neq_zero (v : value) : strict_neq v (Int 0) = true <-> v <> Int 0.
Proof.
  unfold strict_neq; destruct v as [z| |]; simpl.
  - destruct (Z.eqb_spec z 0) as [->|Hz]; simpl; split; intro H;
      congruence.
  - split; [discriminate | reflexivity].
  - split; [discriminate | reflexivity].
Qed.

Lemma strict_neq_zero_false (v : value) : strict_neq v (Int 0) = false <-> v = Int 0.
Proof.
  unfold strict_neq; destruct v as [z| |]; simpl.
  - destruct (Z.eqb_spec z 0) as [->|Hz]; simpl; split; intro H;
      congruence.
  - split; discriminate.
  - split; discriminate.
Qed.

Lemma strict_neq_Int (x y : Z) : strict_neq (Int x) (Int y) = true <-> x <> y.
Proof.
  unfold strict_neq; simpl. destruct (Z.eqb_spec x y); simpl; split; intro H;
    congruence.
Qed.

Lemma or_zero_Int (z : Z) : JS.or (Int z) (Int 0) = Int z.
Proof.
  unfold JS.or; simpl. destruct (Z.eqb_spec z 0) as [->|]; reflexivity.
Qed.

(** ** The map *)

Lemma get_set_same (store : Map.t) (k : string) (v : value) :
  Map.get (Map.set store k v) k = v.
Proof.
  induction store as [|[k' w] rest IH]; simpl.
  - now rewrite String.eqb_refl.
  - destruct (String.eqb k' k) eqn:E; simpl; rewrite E; auto.
Qed.

Lemma get_set_other (store : Map.t) (k k' : string) (v : value) :
  k <> k' -> Map.get (Map.set store k v) k' = Map.get store k'.
Proof.
  intro Hne. induction store as [|[k0 w] rest IH]; simpl.
  - destruct (String.eqb_spec k k'); [contradiction | reflexivity].
  - destruct (String.eqb_spec k0 k) as [->|Hk]; simpl.
    + destruct (String.eqb_spec k k'); [contradiction | reflexivity].
    + destruct (String.eqb_spec k0 k'); auto.
Qed.

Lemma has_set_same (store : Map.t) (k : string) (v : value) :
  Map.has (Map.set store k v) k = true.
Proof.
  induction store as [|[k' w] rest IH]; simpl.
  - now rewrite String.eqb_refl.
  - destruct (String.eqb k' k) eqn:E; simpl; rewrite E; auto.
Qed.

Lemma has_In (store : Map.t) (k : string) :
  Map.has store k = true <-> In k (map fst store).
Proof.
  induction store as [|[k' w] rest IH]; simpl.
  - split; [discriminate | tauto].
  - destruct (String.eqb_spec k' k) as [->|Hk].
    + split; auto.
    + rewrite IH. split; [auto | intros [?|?]; [contradiction | assumption]].
Qed.

Lemma set_noZero (store : Map.t) (k : string) (v : value) :
  v <> Int 0 -> noZeroEntry store -> noZeroEntry (Map.set store k v).
Proof.
  intros Hv H. induction H as [|[k' w] rest Hw Hrest IH]; simpl.
  - repeat constructor. exact Hv.
  - destruct (String.eqb k' k); constructor; auto.
Qed.

Lemma set_fresh (store : Map.t) (k : string) (v : value) :
  ~ In k (map fst store) -> Map.set store k v = (store ++ [(k, v)])%list.
Proof.
  induction store as [|[k' w] rest IH]; simpl; intro H.
  - reflexivity.
  - destruct (String.eqb_spec k' k) as [->|Hk].
    + elim H. now left.
    + f_equal. apply IH. intro; apply H; now right.
Qed.

Lemma forEach_invariant {S : Type} (P : S -> Prop) (store : Map.t)
    (callback : value -> string -> S -> S) (acc : S) :
  P acc -> (forall v k st, P st -> P (callback v k st)) ->
  P (Map.forEach store callback acc).
Proof.
  unfold Map.forEach. revert acc.
  induction store as [|[k v] rest IH]; simpl; intros acc Hacc Hstep.
  - exact Hacc.
  - apply IH; [apply Hstep, Hacc | exact Hstep].
Qed.

(** ** Elements are written through [setElement] only *)

(** A property of matrices that the constructor establishes and
    [setElement] keeps holds of everything the operations and the parser
    return. *)
Section WrittenBySetElement.

Variable P : Matrix -> Prop.
Hypothesis P_setElement : forall m row col v, P m -> P (setElement m row col v).

Lemma add_preserves (a b m : Matrix) :
  P (new (numRows a) (numCols a)) -> add a b = Ok m -> P m.
Proof.
  unfold add. intros Hnew.
  destruct (_ || _); [discriminate|]. intros [= <-].
  apply forEach_invariant; [apply forEach_invariant; [exact Hnew|]|].
  - intros v k st Hst. destruct (rowcol k). now apply P_setElement.
  - intros v k st Hst. destruct (negb _); [|exact Hst].
    destruct (rowcol k). now apply P_setElement.
Qed.

Lemma subtract_preserves (a b m : Matrix) :
  P (new (numRows a) (numCols a)) -> subtract a b = Ok m -> P m.
Proof.
  unfold subtract. intros Hnew.
  destruct (_ || _); [discriminate|]. intros [= <-].
  apply forEach_invariant; [apply forEach_invariant; [exact Hnew|]|].
  - intros v k st Hst. destruct (rowcol k). now apply P_setElement.
  - intros v k st Hst. destruct (negb _); [|exact Hst].
    destruct (rowcol k). now apply P_setElement.
Qed.

Lemma multiply_preserves (a b m : Matrix) :
  P (new (numRows a) (numCols b)) -> multiply a b = Ok m -> P m.
Proof.
  unfold multiply. intros Hnew.
  destruct (strict_neq _ _); [discriminate|]. intros [= <-].
  apply forEach_invariant; [exact Hnew|].
  intros valueA keyA st Hst. destruct (rowcol keyA) as [rowA colA].
  apply forEach_invariant; [exact Hst|].
  intros valueB keyB st' Hst'. destruct (rowcol keyB) as [rowB colB].
  destruct (strict_eq colA rowB); [now apply P_setElement | exact Hst'].
Qed.

Lemma parseElements_preserves (lines : list string) (m0 m : Matrix) :
  P m0 -> parseElements lines m0 = Ok m -> P m.
Proof.
  revert m0. induction lines as [|l rest IH]; simpl; intros m0 H0.
  - now intros [= <-].
  - destruct (String.eqb (trim l) ""); [now apply IH|].
    destruct (extractValues (trim l)) as [[[row col] v]|e]; [|discriminate].
    apply IH. now apply P_setElement.
Qed.

Lemma fromFile_preserves (content : string) (m : Matrix) :
  (forall rows cols, P (new rows cols)) -> fromFile content = Ok m -> P m.
Proof.
  unfold fromFile. intros Hnew.
  destruct (extractNumber _ "rows=") as [rows|e]; [simpl|discriminate].
  destruct (extractNumber _ "cols=") as [cols|e]; [simpl|discriminate].
  apply parseElements_preserves, Hnew.
Qed.

End WrittenBySetElement.

Lemma setElement_numRows (m : Matrix) (row col v : value) :
  numRows (setElement m row col v) = numRows m.
Proof. unfold setElement. now destruct (strict_neq v (Int 0)). Qed.

Lemma setElement_numCols (m : Matrix) (row col v : value) :
  numCols (setElement m row col v) = numCols m.
Proof. unfold setElement. now destruct (strict_neq v (Int 0)). Qed.

Lemma setElement_noZero (m : Matrix) (row col v : value) :
  noZeroEntry (elements m) -> noZeroEntry (elements (setElement m row col v)).
Proof.
  unfold setElement. intro H.
  destruct (strict_neq v (Int 0)) eqn:E; [simpl|exact H].
  apply set_noZero; [now apply strict_neq_zero | exact H].
Qed.

(** C7. Every matrix produced by the public interface (the constructor,
    [fromFile], [add], [subtract], [multiply], and [setElement] on such a
    matrix) has no entry of value 0 in its element mapping. *)
Theorem produced_noZeroEntry (m : Matrix) :
  Produced m -> noZeroEntry (elements m).
Proof.
  set (P := fun m => noZeroEntry (elements m)).
  assert (Hset : forall m row col v, P m -> P (setElement m row col v))
    by (intros; now apply setElement_noZero).
  assert (Hnew : forall rows cols, P (new rows cols)) by (intros; constructor).
  induction 1 as [rows cols|m row col v _ IH|content m H|a b m H|a b m H|a b m H].
  - apply Hnew.
  - now apply Hset.
  - now apply (fromFile_preserves P Hset content).
  - now apply (add_preserves P Hset a b).
  - now apply (subtract_preserves P Hset a b).
  - now apply (multiply_preserves P Hset a b).
Qed.

(** The invariant at the difference of the scenario's matrices. *)
Lemma produced_noZeroEntry_witness :
  Produced (mkMatrix (Int 2) (Int 2) [("0,0", Int 3); ("1,1", Int 3); ("0,1", Int (-4))])
  /\ noZeroEntry [("0,0", Int 3); ("1,1", Int 3); ("0,1", Int (-4))].
Proof.
  assert (H : Produced (mkMatrix (Int 2) (Int 2)
                 [("0,0", Int 3); ("1,1", Int 3); ("0,1", Int (-4))]))
    by (apply (Produced_subtract scenarioA scenarioB); reflexivity).
  split; [exact H | exact (produced_noZeroEntry _ H)].
Defined.

(** ** Dimension checks *)

Lemma add_numRows (a b m : Matrix) : add a b = Ok m -> numRows m = numRows a.
Proof.
  apply (add_preserves (fun m => numRows m = numRows a)); [|reflexivity].
  intros; now rewrite setElement_numRows.
Qed.

Lemma add_numCols (a b m : Matrix) : add a b = Ok m -> numCols m = numCols a.
Proof.
  apply (add_preserves (fun m => numCols m = numCols a)); [|reflexivity].
  intros; now rewrite setElement_numCols.
Qed.

Lemma subtract_numRows (a b m : Matrix) :
  subtract a b = Ok m -> numRows m = numRows a.
Proof.
  apply (subtract_preserves (fun m => numRows m = numRows a)); [|reflexivity].
  intros; now rewrite setElement_numRows.
Qed.

Lemma subtract_numCols (a b m : Matrix) :
  subtract a b = Ok m -> numCols m = numCols a.
Proof.
  apply (subtract_preserves (fun m => numCols m = numCols a)); [|reflexivity].
  intros; now rewrite setElement_numCols.
Qed.

Lemma multiply_numRows (a b m : Matrix) :
  multiply a b = Ok m -> numRows m = numRows a.
Proof.
  apply (multiply_preserves (fun m => numRows m = numRows a)); [|reflexivity].
  intros; now rewrite setElement_numRows.
Qed.

Lemma multiply_numCols (a b m : Matrix) :
  multiply a b = Ok m -> numCols m = numCols b.
Proof.
  apply (multiply_preserves (fun m => numCols m = numCols b)); [|reflexivity].
  intros; now rewrite setElement_numCols.
Qed.

Lemma dimensionError_kind (operation : string) :
  DimensionMismatch (dimensionError operation).
Proof. now exists operation. Qed.

(** C3. [add] and [subtract] fail, with DimensionMismatch, exactly when
    [this.numRows !== other.numRows] or [this.numCols !== other.numCols];
    [multiply] fails, with DimensionMismatch, exactly when
    [this.numCols !== other.numRows]; none of them fails in another way;
    and a successful [multiply] returns a matrix of dimensions
    [(this.numRows, other.numCols)]. *)
Theorem dimension_checks (a b : Matrix) :
  (failsWith (add a b) DimensionMismatch <->
     strict_neq (numRows a) (numRows b) = true \/
     strict_neq (numCols a) (numCols b) = true)
  /\ (failsWith (subtract a b) DimensionMismatch <->
     strict_neq (numRows a) (numRows b) = true \/
     strict_neq (numCols a) (numCols b) = true)
  /\ (failsWith (multiply a b) DimensionMismatch <->
     strict_neq (numCols a) (numRows b) = true)
  /\ (forall e, add a b = Throw e \/ subtract a b = Throw e
                \/ multiply a b = Throw e -> DimensionMismatch e)
  /\ (forall m, multiply a b = Ok m ->
        numRows m = numRows a /\ numCols m = numCols b).
Proof.
  repeat split.
  - intros (e & H & _). unfold add in H. apply orb_true_iff.
    destruct (_ || _); [reflexivity | discriminate].
  - intro H. apply orb_true_iff in H. unfold add. rewrite H.
    eexists; split; [reflexivity | apply dimensionError_kind].
  - intros (e & H & _). unfold subtract in H. apply orb_true_iff.
    destruct (_ || _); [reflexivity | discriminate].
  - intro H. apply orb_true_iff in H. unfold subtract. rewrite H.
    eexists; split; [reflexivity | apply dimensionError_kind].
  - intros (e & H & _). unfold multiply in H.
    destruct (strict_neq _ _); [reflexivity | discriminate].
  - intro H. unfold multiply. rewrite H.
    eexists; split; [reflexivity | apply dimensionError_kind].
  - intros e [H|[H|H]]; revert H;
      [unfold add | unfold subtract | unfold multiply].
    + destruct (_ || _); [intros [= <-]; apply dimensionError_kind | discriminate].
    + destruct (_ || _); [intros [= <-]; apply dimensionError_kind | discriminate].
    + destruct (strict_neq _ _);
        [intros [= <-]; apply dimensionError_kind | discriminate].
  - now apply multiply_numRows with b.
  - now apply multiply_numCols with a.
Qed.

(** ** Element access *)

(** C8, as the code has it. [setElement(row, col, value)] stores [value]
    at [(row, col)] when [value !== 0]; with [value] 0 it leaves the
    matrix as it was, so an entry already stored at that key remains. *)
Theorem setElement_stores_or_skips (m : Matrix) (row col v : value) :
  (v <> Int 0 ->
     Map.has (elements (setElement m row col v)) (key row col) = true /\
     Map.get (elements (setElement m row col v)) (key row col) = v)
  /\ setElement m row col (Int 0) = m.
Proof.
  split; [|reflexivity].
  intro Hv. apply strict_neq_zero in Hv. unfold setElement. rewrite Hv. simpl.
  split; [apply has_set_same | apply get_set_same].
Qed.

(** C8 as stated fails: after storing 5 at (0,0), [setElement(0, 0, 0)]
    leaves the entry in place and [getElement(0, 0)] still returns 5. *)
Lemma setElement_zero_keeps_entry :
  let m := setElement (new (Int 1) (Int 1)) (Int 0) (Int 0) (Int 5) in
  let m' := setElement m (Int 0) (Int 0) (Int 0) in
  Map.has (elements m) (key (Int 0) (Int 0)) = true
  /\ Map.has (elements m') (key (Int 0) (Int 0)) = true
  /\ getElement m' (Int 0) (Int 0) = Int 5
  /\ getElement m' (Int 0) (Int 0) <> Int 0.
Proof. repeat split. discriminate. Qed.

Lemma get_absent (store : Map.t) (k : string) :
  Map.has store k = false -> Map.get store k = Undefined.
Proof.
  induction store as [|[k' w] rest IH]; simpl; [reflexivity|].
  destruct (String.eqb k' k); [discriminate | exact IH].
Qed.

(** [getElement] is total; it returns the stored value when an entry is
    present and its value is a number other than NaN, and 0 otherwise:
    when no entry is present, or when the stored value is NaN or
    undefined. *)
Theorem getElement_total (m : Matrix) (row col : value) :
  getElement m row col =
    if Map.has (elements m) (key row col)
    then match Map.get (elements m) (key row col) with
         | Int z => Int z
         | NaN | Undefined => Int 0
         end
    else Int 0.
Proof.
  unfold getElement.
  destruct (Map.has (elements m) (key row col)) eqn:E.
  - destruct (Map.get _ _); [apply or_zero_Int | reflexivity | reflexivity].
  - now rewrite get_absent.
Qed.

(** C9 at a stored NaN.  Parsing a file whose value field has no digits
    stores NaN at (0,0): an entry is present there, and [getElement(0, 0)]
    returns 0, not the stored value, against both the claim and the
    comment of the method (the value of the element, or 0 if not
    found). *)
Lemma getElement_stored_NaN :
  exists m,
    fromFile (join LF ["rows=1"; "cols=1"; "(0, 0, x)"]) = Ok m
    /\ Map.has (elements m) (key (Int 0) (Int 0)) = true
    /\ Map.get (elements m) (key (Int 0) (Int 0)) = NaN
    /\ getElement m (Int 0) (Int 0) = Int 0
    /\ getElement m (Int 0) (Int 0) <> Map.get (elements m) (key (Int 0) (Int 0)).
Proof. eexists. repeat split. discriminate. Qed.

(** ** The operations on concrete matrices *)

(** C5. For A = 2x2 with (0,0)=5, (1,1)=3 and B = 2x2 with (0,0)=2,
    (0,1)=4: the sum has exactly the entries (0,0)=7, (0,1)=4, (1,1)=3;
    the difference exactly (0,0)=3, (0,1)=-4, (1,1)=3; the product exactly
    (0,0)=10, (0,1)=20. *)
Theorem scenario_results :
  exists s d p,
    add scenarioA scenarioB = Ok s
    /\ subtract scenarioA scenarioB = Ok d
    /\ multiply scenarioA scenarioB = Ok p
    /\ Permutation (entries s)
         [(Int 0, Int 0, Int 7); (Int 0, Int 1, Int 4); (Int 1, Int 1, Int 3)]
    /\ Permutation (entries d)
         [(Int 0, Int 0, Int 3); (Int 0, Int 1, Int (-4)); (Int 1, Int 1, Int 3)]
    /\ Permutation (entries p)
         [(Int 0, Int 0, Int 10); (Int 0, Int 1, Int 20)].
Proof.
  do 3 eexists. do 3 (split; [reflexivity|]).
  cbv [entries elements map fst snd].
  repeat split.
  - change (rowcol "0,0") with (Int 0, Int 0).
    change (rowcol "1,1") with (Int 1, Int 1).
    change (rowcol "0,1") with (Int 0, Int 1). simpl.
    apply perm_skip, perm_swap.
  - change (rowcol "0,0") with (Int 0, Int 0).
    change (rowcol "1,1") with (Int 1, Int 1).
    change (rowcol "0,1") with (Int 0, Int 1). simpl.
    apply perm_skip, perm_swap.
  - change (rowcol "0,0") with (Int 0, Int 0).
    change (rowcol "0,1") with (Int 0, Int 1). simpl.
    apply Permutation_refl.
Qed.

(** C1 at a cancelling position. For A = 1x1 with A(0,0)=5 and B = 1x1
    with B(0,0)=-5, [A.add(B).getElement(0,0)] is -5 although
    A(0,0) + B(0,0) = 0: the first pass writes nothing for the zero sum and
    the second pass, finding no key, stores B's value. *)
Theorem add_cancelling_entry :
  let a := build 1 1 [(0, 0, 5)] in
  let b := build 1 1 [(0, 0, -5)] in
  numRows a = numRows b /\ numCols a = numCols b
  /\ exists m,
       add a b = Ok m
       /\ getElement m (Int 0) (Int 0) = Int (-5)
       /\ plus (getElement a (Int 0) (Int 0)) (getElement b (Int 0) (Int 0)) = Int 0.
Proof. do 2 (split; [reflexivity|]). eexists. repeat split. Qed.

(** C2 at a cancelling position. For A = B = 1x1 with entry (0,0)=5,
    [A.subtract(B).getElement(0,0)] is -5 although A(0,0) - B(0,0) = 0. *)
Theorem subtract_cancelling_entry :
  let a := build 1 1 [(0, 0, 5)] in
  let b := build 1 1 [(0, 0, 5)] in
  numRows a = numRows b /\ numCols a = numCols b
  /\ exists m,
       subtract a b = Ok m
       /\ getElement m (Int 0) (Int 0) = Int (-5)
       /\ minus (getElement a (Int 0) (Int 0)) (getElement b (Int 0) (Int 0)) = Int 0.
Proof. do 2 (split; [reflexivity|]). eexists. repeat split. Qed.

(** ** The parser's failures *)

Lemma split_nonempty (sep : ascii) (s : string) : split sep s <> [].
Proof.
  destruct s as [|c r]; simpl; [discriminate|].
  destruct (Ascii.eqb c sep); [discriminate|].
  destruct (split sep r); discriminate.
Qed.

Lemma split_length (sep : ascii) (s : string) :
  List.length (split sep s) = S (count sep s).
Proof.
  induction s as [|c r IH]; simpl; [reflexivity|].
  destruct (Ascii.eqb c sep); simpl; [now rewrite IH|].
  destruct (split sep r) as [|h t]; simpl in *; [discriminate | exact IH].
Qed.

Lemma indexOf_from_found (s : string) (c : ascii) (i : Z) :
  occurs c s = true -> i <= indexOf_from s c i.
Proof.
  revert i. induction s as [|d r IH]; simpl; intros i H; [discriminate|].
  destruct (Ascii.eqb d c); simpl in H; [lia|].
  specialize (IH (i + 1) H). lia.
Qed.

Lemma indexOf_absent (s : string) (c : ascii) :
  indexOf s c = -1 <-> occurs c s = false.
Proof.
  unfold indexOf. split.
  - intro H. destruct (occurs c s) eqn:E; [|reflexivity].
    pose proof (indexOf_from_found s c 0 E). lia.
  - generalize 0. induction s as [|d r IH]; simpl; intros i H; [reflexivity|].
    destruct (Ascii.eqb d c); simpl in H; [discriminate|]. now apply IH.
Qed.

Lemma indexOf_from_app (pre rest : string) (c : ascii) (i : Z) :
  occurs c pre = false ->
  indexOf_from (pre ++ String c rest) c i = i + Z.of_nat (String.length pre).
Proof.
  revert i. induction pre as [|d r IH]; simpl; intros i H.
  - rewrite Ascii.eqb_refl. lia.
  - destruct (Ascii.eqb d c); simpl in H; [discriminate|].
    rewrite IH by exact H. lia.
Qed.

Lemma occurs_app (c : ascii) (s t : string) :
  occurs c (s ++ t) = occurs c s || occurs c t.
Proof.
  induction s as [|d r IH]; simpl; [reflexivity|].
  now rewrite IH, orb_assoc.
Qed.

Lemma append_assoc (s t u : string) : (s ++ t) ++ u = s ++ t ++ u.
Proof. induction s; simpl; congruence. Qed.

Lemma append_empty_r (s : string) : s ++ "" = s.
Proof. induction s; simpl; congruence. Qed.

Lemma length_app (s t : string) :
  String.length (s ++ t) = (String.length s + String.length t)%nat.
Proof. induction s; simpl; congruence. Qed.

Lemma substring_middle (a b c : string) :
  substring (String.length a) (String.length b) (a ++ b ++ c) = b.
Proof.
  induction a as [|x a IH]; simpl; [|exact IH].
  induction b as [|y b IHb]; simpl.
  - now destruct c.
  - now rewrite IHb.
Qed.

Lemma slice_middle (a b c : string) :
  slice (a ++ b ++ c) (Z.of_nat (String.length a))
        (Z.of_nat (String.length a + String.length b)) = b.
Proof.
  unfold slice, relativeIndex. rewrite !length_app.
  destruct (Z.ltb_spec (Z.of_nat (String.length a)) 0); [lia|].
  destruct (Z.ltb_spec (Z.of_nat (String.length a + String.length b)) 0); [lia|].
  replace (Z.to_nat _) with (String.length a) by lia.
  replace (Z.to_nat _) with (String.length b) by lia.
  apply substring_middle.
Qed.

(** White space around a character that is not white space. *)
Lemma trimStart_app (pre rest : string) (c : ascii) :
  isWhiteSpace c = false ->
  trimStart (pre ++ String c rest) = trimStart pre ++ String c rest.
Proof.
  intro Hc. induction pre as [|d r IH]; simpl; [now rewrite Hc|].
  now destruct (isWhiteSpace d).
Qed.

Lemma trimEnd_app (front post : string) (c : ascii) :
  isWhiteSpace c = false ->
  trimEnd (front ++ String c post) = front ++ String c (trimEnd post).
Proof.
  intro Hc. induction front as [|d r IH]; simpl.
  - destruct (trimEnd post); [now rewrite Hc | reflexivity].
  - rewrite IH. now destruct r.
Qed.

Lemma occurs_trimStart (c : ascii) (s : string) :
  isWhiteSpace c = false -> occurs c (trimStart s) = occurs c s.
Proof.
  intro Hc. induction s as [|d r IH]; simpl; [reflexivity|].
  destruct (isWhiteSpace d) eqn:Hd; [|reflexivity].
  rewrite IH. destruct (Ascii.eqb_spec d c) as [->|]; [congruence | reflexivity].
Qed.

Lemma occurs_trimEnd (c : ascii) (s : string) :
  isWhiteSpace c = false -> occurs c (trimEnd s) = occurs c s.
Proof.
  intro Hc. induction s as [|d r IH]; simpl; [reflexivity|].
  destruct (trimEnd r) as [|e r'] eqn:E.
  - rewrite <- IH. simpl. destruct (isWhiteSpace d) eqn:Hd; simpl; [|reflexivity].
    destruct (Ascii.eqb_spec d c) as [->|]; [congruence | reflexivity].
  - now rewrite <- IH.
Qed.

Lemma occurs_trim (c : ascii) (s : string) :
  isWhiteSpace c = false -> occurs c (trim s) = occurs c s.
Proof.
  intro Hc. unfold trim. now rewrite occurs_trimEnd, occurs_trimStart.
Qed.

Lemma extractValues_throws (line : string) (e : exn) :
  extractValues line = Throw e -> e = formatError.
Proof.
  unfold extractValues. destruct (_ || _); [now intros [= <-]|].
  destruct (split _ _) as [|v0 [|v1 [|v2 [|v3 t]]]];
    try (now intros [= <-]); discriminate.
Qed.

Lemma extractValues_no_paren (line : string) :
  occurs "(" line = false \/ occurs ")" line = false ->
  extractValues line = Throw formatError.
Proof.
  intro H. unfold extractValues.
  replace ((indexOf line "(" =? -1) || (indexOf line ")" =? -1)) with true;
    [reflexivity|].
  symmetry. apply orb_true_iff.
  destruct H as [H|H]; [left | right]; apply Z.eqb_eq, indexOf_absent, H.
Qed.

Lemma extractValues_arity (pre inner post : string) :
  occurs "(" pre = false -> occurs ")" pre = false ->
  occurs ")" inner = false -> count "," inner <> 2%nat ->
  extractValues (pre ++ "(" ++ inner ++ ")" ++ post) = Throw formatError.
Proof.
  intros Hpre1 Hpre2 Hinner Hcount.
  set (line := pre ++ "(" ++ inner ++ ")" ++ post).
  assert (Hstart : indexOf line "(" = Z.of_nat (String.length pre)).
  { unfold indexOf, line. simpl append.
    rewrite indexOf_from_app by exact Hpre1. lia. }
  assert (Hend : indexOf line ")" =
                 Z.of_nat (String.length (pre ++ "(") + String.length inner)).
  { unfold indexOf, line.
    replace (pre ++ "(" ++ inner ++ ")" ++ post)
      with ((pre ++ "(" ++ inner) ++ String ")" post)
      by (rewrite !append_assoc; reflexivity).
    rewrite indexOf_from_app
      by (rewrite !occurs_app, Hpre2, Hinner; reflexivity).
    rewrite !length_app. simpl. lia. }
  unfold extractValues. rewrite Hstart, Hend.
  destruct (Z.eqb_spec (Z.of_nat (String.length pre)) (-1)); [lia|].
  destruct (Z.eqb_spec
              (Z.of_nat (String.length (pre ++ "(") + String.length inner)) (-1));
    [lia|]. simpl orb. cbv iota.
  replace (Z.of_nat (String.length pre) + 1)
    with (Z.of_nat (String.length (pre ++ "(")))
    by (rewrite length_app; simpl; lia).
  replace line with ((pre ++ "(") ++ inner ++ (")" ++ post))
    by (unfold line; rewrite !append_assoc; reflexivity).
  rewrite slice_middle.
  pose proof (split_length "," inner) as Hlen.
  destruct (split "," inner) as [|v0 [|v1 [|v2 [|v3 t]]]]; try reflexivity.
  simpl in Hlen. lia.
Qed.

Lemma trim_parenthesized (pre inner post : string) :
  trim (pre ++ "(" ++ inner ++ ")" ++ post)
  = trimStart pre ++ "(" ++ inner ++ ")" ++ trimEnd post.
Proof.
  unfold trim. simpl append.
  rewrite trimStart_app by reflexivity.
  replace (trimStart pre ++ String "(" (inner ++ String ")" post))
    with ((trimStart pre ++ "(" ++ inner) ++ String ")" post)
    by (rewrite !append_assoc; reflexivity).
  rewrite trimEnd_app by reflexivity.
  rewrite !append_assoc. reflexivity.
Qed.

Lemma formatError_fails {A : Type} (r : result A) :
  r = Throw formatError -> failsWith r FormatError.
Proof. intros ->. now exists formatError. Qed.

Lemma parseElements_bad_line (lines : list string) (l : string) (m : Matrix) :
  In l lines -> trim l <> "" -> extractValues (trim l) = Throw formatError ->
  parseElements lines m = Throw formatError.
Proof.
  intros Hin Hblank Hbad. revert m.
  induction lines as [|l' rest IH]; simpl; intro m; [contradiction|].
  destruct (String.eqb_spec (trim l') "") as [E|E].
  - destruct Hin as [->|Hin]; [contradiction | now apply IH].
  - destruct (extractValues (trim l')) as [[[row col] v]|e] eqn:Ev.
    + destruct Hin as [->|Hin]; [congruence | now apply IH].
    + f_equal. now apply extractValues_throws with (trim l').
Qed.

Lemma fromFile_bad_rows (content : string) :
  startsWith (hd "" (linesOf content)) "rows=" = false ->
  fromFile content = Throw formatError.
Proof.
  unfold fromFile, linesOf. intro H.
  destruct (split LF (trim content)) as [|l0 rest] eqn:E;
    [now apply split_nonempty in E|].
  simpl in *. now rewrite H.
Qed.

Lemma fromFile_bad_cols (content l : string) :
  nth_error (linesOf content) 1 = Some l -> startsWith l "cols=" = false ->
  fromFile content = Throw formatError.
Proof.
  unfold fromFile, linesOf. intros Hl H.
  destruct (split LF (trim content)) as [|l0 [|l1 rest]]; try discriminate.
  injection Hl as ->. simpl.
  destruct (startsWith l0 "rows="); simpl; [now rewrite H | reflexivity].
Qed.

Lemma fromFile_bad_data_line (content l : string) (i : nat) :
  nth_error (linesOf content) i = Some l -> (2 <= i)%nat ->
  trim l <> "" -> extractValues (trim l) = Throw formatError ->
  fromFile content = Throw formatError.
Proof.
  unfold fromFile, linesOf. intros Hl Hi Hblank Hbad.
  destruct (split LF (trim content)) as [|l0 [|l1 rest]];
    [destruct i; discriminate | destruct i as [|[|i]]; [lia | lia | discriminate] |].
  destruct i as [|[|i]]; [lia | lia |]. simpl in Hl.
  simpl. destruct (startsWith l0 "rows="); simpl; [|reflexivity].
  destruct (startsWith l1 "cols="); simpl; [|reflexivity].
  apply parseElements_bad_line with l; auto.
  now apply nth_error_In with i.
Qed.

Lemma parseElements_throws (lines : list string) (m : Matrix) (e : exn) :
  parseElements lines m = Throw e -> e = formatError.
Proof.
  revert m. induction lines as [|l rest IH]; simpl; intro m; [discriminate|].
  destruct (String.eqb (trim l) ""); [apply IH|].
  destruct (extractValues (trim l)) as [[[row col] v]|e'] eqn:Ev; [apply IH|].
  intros [= <-]. now apply extractValues_throws with (trim l).
Qed.

(** X13. The parser throws nothing but the format error, except on a text of
    one line, where reading the missing second line raises a TypeError. *)
Lemma fromFile_throws (content : string) (e : exn) :
  fromFile content = Throw e ->
  e = formatError
  \/ (e = TypeError /\ nth_error (linesOf content) 1 = None).
Proof.
  unfold fromFile, linesOf.
  destruct (split LF (trim content)) as [|l0 [|l1 rest]] eqn:E;
    [now apply split_nonempty in E| |]; cbn [nth_error extractNumber].
  - destruct (negb (startsWith l0 "rows=")); cbn [bind];
      intros [= <-]; auto.
  - destruct (negb (startsWith l0 "rows=")); cbn [bind];
      [intros [= <-]; auto|].
    destruct (negb (startsWith l1 "cols=")); cbn [bind];
      [intros [= <-]; auto|].
    intro H. left. now apply parseElements_throws in H.
Qed.

(** C10 on a text without a second line.  When the header has its [rows=]
    line and no [cols=] line at all, the prefix of the columns cannot
    match, yet [fromFile] does not fail with FormatError: [lines[1]] is
    [undefined], and calling [startsWith] on it raises a TypeError.  So it
    is on the text [rows=2]. *)
Theorem fromFile_missing_cols_line :
  (forall content l0,
      linesOf content = [l0] -> startsWith l0 "rows=" = true ->
      fromFile content = Throw TypeError
      /\ ~ failsWith (fromFile content) FormatError)
  /\ linesOf "rows=2" = ["rows=2"]
  /\ fromFile "rows=2" = Throw TypeError
  /\ ~ failsWith (fromFile "rows=2") FormatError.
Proof.
  assert (H : forall content l0,
             linesOf content = [l0] -> startsWith l0 "rows=" = true ->
             fromFile content = Throw TypeError
             /\ ~ failsWith (fromFile content) FormatError).
  { intros content l0 Hl H0. unfold linesOf in Hl.
    assert (E : fromFile content = Throw TypeError).
    { unfold fromFile. rewrite Hl. cbn [nth_error extractNumber].
      now rewrite H0. }
    split; [exact E|]. rewrite E. intros (e & [= <-] & He). discriminate He. }
  split; [exact H|]. split; [reflexivity|].
  exact (H "rows=2" "rows=2" eq_refl eq_refl).
Qed.

(** X23. Where the line in question exists, [fromFile] fails with the
    format error: when the first line does not start with [rows=] or a
    second line does not start with [cols=]; when a non-blank data line
    lacks a parenthesis (a fortiori both); and when the text between the
    first [(] and the first [)] of a data line does not split at commas
    into exactly three components.  In particular it fails on a first
    line [ROWS=2] and on a data line [(1,2)]. *)
Theorem fromFile_format_errors :
  (forall content,
      startsWith (hd "" (linesOf content)) "rows=" = false ->
      failsWith (fromFile content) FormatError)
  /\ (forall content l,
      nth_error (linesOf content) 1 = Some l ->
      startsWith l "cols=" = false ->
      failsWith (fromFile content) FormatError)
  /\ (forall content i l,
      nth_error (linesOf content) i = Some l -> (2 <= i)%nat ->
      trim l <> "" ->
      occurs "(" l = false \/ occurs ")" l = false ->
      failsWith (fromFile content) FormatError)
  /\ (forall content i pre inner post,
      nth_error (linesOf content) i = Some (pre ++ "(" ++ inner ++ ")" ++ post) ->
      (2 <= i)%nat ->
      occurs "(" pre = false -> occurs ")" pre = false ->
      occurs ")" inner = false ->
      count "," inner <> 2%nat ->
      failsWith (fromFile content) FormatError)
  /\ failsWith (fromFile (join LF ["ROWS=2"; "cols=2"])) FormatError
  /\ failsWith (fromFile (join LF ["rows=2"; "cols=2"; "(1,2)"])) FormatError.
Proof.
  repeat apply conj.
  - intros content H. now apply formatError_fails, fromFile_bad_rows.
  - intros content l Hl H. now apply formatError_fails, fromFile_bad_cols with l.
  - intros content i l Hl Hi Hblank H.
    apply formatError_fails, fromFile_bad_data_line with l i; auto.
    apply extractValues_no_paren.
    rewrite !occurs_trim by reflexivity. exact H.
  - intros content i pre inner post Hl Hi Hp1 Hp2 Hin Hc.
    apply formatError_fails, (fromFile_bad_data_line _ _ i Hl Hi).
    + rewrite trim_parenthesized. now destruct (trimStart pre).
    + rewrite trim_parenthesized. apply extractValues_arity; auto;
        now rewrite occurs_trimStart.
  - now apply formatError_fails.
  - now apply formatError_fails.
Qed.

(** ** Printing and reading numbers *)

Lemma uintValue_pos (d : uint) (acc : positive) :
  uintValue d (Z.pos acc) = Z.pos (Pos.of_uint_acc d acc).
Proof.
  revert acc. induction d; intro acc; cbn [uintValue Pos.of_uint_acc];
    [reflexivity|..]; rewrite <- IHd; f_equal; lia.
Qed.

Lemma uintValue_zero (d : uint) : uintValue d 0 = Z.of_N (Pos.of_uint d).
Proof.
  induction d; cbn [uintValue Pos.of_uint]; [reflexivity | exact IHd | ..];
    apply uintValue_pos.
Qed.

Lemma parseDigits_uint_acc (d : uint) (a : Z) :
  parseDigits 10 (NilEmpty.string_of_uint d) (Some a) = Some (uintValue d a).
Proof.
  revert a. induction d; intro a; simpl; [reflexivity|..]; apply IHd.
Qed.

Lemma parseDigits_uint (d : uint) :
  d <> Nil ->
  parseDigits 10 (NilEmpty.string_of_uint d) None = Some (uintValue d 0).
Proof.
  destruct d; intro H; [now elim H|..]; simpl; apply parseDigits_uint_acc.
Qed.

Lemma parseDigits_to_uint (p : positive) :
  parseDigits 10 (NilEmpty.string_of_uint (Pos.to_uint p)) None = Some (Z.pos p).
Proof.
  rewrite parseDigits_uint by apply DecimalPos.Unsigned.to_uint_nonnil.
  now rewrite uintValue_zero, DecimalPos.Unsigned.of_to.
Qed.

Lemma parseInt_uint (d : uint) :
  parseInt (NilEmpty.string_of_uint d)
  = match parseDigits 10 (NilEmpty.string_of_uint d) None with
    | Some n => Int n
    | None => NaN
    end.
Proof.
  assert (H1 : forall n, Int (1 * n) = Int n) by (intro n; f_equal; lia).
  destruct d as [|d|d|d|d|d|d|d|d|d|d]; try reflexivity;
    try (unfold parseInt; cbn -[Z.mul]; now destruct (parseDigits _ _ _)).
  destruct d; unfold parseInt; cbn -[Z.mul]; try reflexivity;
    now destruct (parseDigits _ _ _).
Qed.

Lemma parseInt_minus_uint (d : uint) :
  parseInt (String "-" (NilEmpty.string_of_uint d))
  = match parseDigits 10 (NilEmpty.string_of_uint d) None with
    | Some n => Int (- n)
    | None => NaN
    end.
Proof.
  assert (H1 : forall n, Int (-1 * n) = Int (- n)) by (intro n; f_equal; lia).
  destruct d as [|d|d|d|d|d|d|d|d|d|d]; try reflexivity;
    try (unfold parseInt; cbn -[Z.mul Z.opp]; now destruct (parseDigits _ _ _)).
  destruct d; unfold parseInt; cbn -[Z.mul Z.opp]; try reflexivity;
    now destruct (parseDigits _ _ _).
Qed.

Lemma plainNumber_isNumber (v : value) :
  plainNumber v = true -> isNumber v = true.
Proof. now destruct v. Qed.

Lemma toString_plain_Int (z : Z) :
  plainNumber (Int z) = true -> toString (Int z) = decimal z.
Proof. cbn [plainNumber toString]. now intros ->. Qed.

(** [parseInt] reads back what [toString] prints in plain notation. *)
Lemma parseInt_toString (v : value) :
  plainNumber v = true -> parseInt (toString v) = v.
Proof.
  destruct v as [z| |]; intro H; try reflexivity; try discriminate.
  rewrite toString_plain_Int by exact H. unfold decimal.
  destruct z as [|p|p]; try reflexivity;
    cbn [Z.to_int NilEmpty.string_of_int].
  - now rewrite parseInt_uint, parseDigits_to_uint.
  - now rewrite parseInt_minus_uint, parseDigits_to_uint.
Qed.

Lemma wholeDigits_uint_acc (d : uint) (a : Z) :
  wholeDigits 10 (NilEmpty.string_of_uint d) (Some a) = Some (uintValue d a).
Proof.
  revert a. induction d; intro a; simpl; [reflexivity|..]; apply IHd.
Qed.

Lemma digitsValue_uint (d : uint) :
  d <> Nil -> digitsValue (NilEmpty.string_of_uint d) = uintValue d 0.
Proof.
  unfold digitsValue.
  destruct d; intro H; [now elim H|..]; simpl;
    now rewrite wholeDigits_uint_acc.
Qed.

Lemma spanDigits_uint (d : uint) :
  spanDigits (NilEmpty.string_of_uint d) = (NilEmpty.string_of_uint d, "").
Proof.
  induction d; [reflexivity|..]; cbn [NilEmpty.string_of_uint spanDigits];
    rewrite IHd; reflexivity.
Qed.

Lemma decimalLiteral_uint (d : uint) :
  d <> Nil ->
  decimalLiteral (NilEmpty.string_of_uint d) = Int (uintValue d 0).
Proof.
  intro H. unfold decimalLiteral. rewrite spanDigits_uint.
  assert (Hne : String.eqb (NilEmpty.string_of_uint d) "" = false)
    by (destruct d; [now elim H|..]; reflexivity).
  rewrite Hne. cbn [andb String.length Z.of_nat Z.opp].
  rewrite append_empty_r, digitsValue_uint by exact H.
  unfold scale. cbn. now rewrite Z.mul_1_r.
Qed.

Lemma decimalLiteral_to_uint (p : positive) :
  decimalLiteral (NilEmpty.string_of_uint (Pos.to_uint p)) = Int (Z.pos p).
Proof.
  rewrite decimalLiteral_uint by apply DecimalPos.Unsigned.to_uint_nonnil.
  now rewrite uintValue_zero, DecimalPos.Unsigned.of_to.
Qed.

(** *** The characters of a printed value *)

Lemma plain_uint (d : uint) : plain (NilEmpty.string_of_uint d) = true.
Proof. induction d; simpl; auto. Qed.

Lemma plain_toString (v : value) :
  plainNumber v = true -> plain (toString v) = true.
Proof.
  destruct v as [z| |]; intro H; try reflexivity; try discriminate.
  rewrite toString_plain_Int by exact H. unfold decimal.
  destruct z as [|p|p]; try reflexivity;
    cbn [Z.to_int NilEmpty.string_of_int]; [|cbn [plain allChars]];
    rewrite ?andb_true_l; apply plain_uint.
Qed.

Lemma plain_occurs (c : ascii) (s : string) :
  plainChar c = false -> plain s = true -> occurs c s = false.
Proof.
  intros Hc. induction s as [|d r IH]; simpl; intro H; [reflexivity|].
  apply andb_true_iff in H as [Hd Hr].
  destruct (Ascii.eqb_spec d c) as [->|]; [congruence | now apply IH].
Qed.

Lemma plain_trimEnd (s : string) : plain s = true -> trimEnd s = s.
Proof.
  induction s as [|d r IH]; simpl; intro H; [reflexivity|].
  apply andb_true_iff in H as [Hd Hr]. rewrite (IH Hr).
  destruct r; [|reflexivity].
  unfold plainChar in Hd. destruct (isWhiteSpace d); [discriminate | reflexivity].
Qed.

Lemma plain_trim (s : string) : plain s = true -> trim s = s.
Proof.
  intro H. unfold trim.
  assert (Hs : trimStart s = s).
  { destruct s as [|d r]; [reflexivity|]. simpl in *.
    apply andb_true_iff in H as [Hd _]. unfold plainChar in Hd.
    destruct (isWhiteSpace d); [discriminate | reflexivity]. }
  rewrite Hs. now apply plain_trimEnd.
Qed.

(** [Number] reads back what [toString] prints in plain notation. *)
Lemma Number_toString (v : value) :
  plainNumber v = true -> Number (toString v) = v.
Proof.
  intro H. unfold Number. rewrite plain_trim by now apply plain_toString.
  destruct v as [z| |]; try reflexivity; try discriminate.
  rewrite toString_plain_Int by exact H. unfold decimal.
  destruct z as [|p|p]; try reflexivity;
    cbn [Z.to_int NilEmpty.string_of_int].
  - pose proof (decimalLiteral_to_uint p) as Hp.
    pose proof (DecimalPos.Unsigned.to_uint_nonnil p) as Hnil.
    destruct (Pos.to_uint p) as [|d|d|d|d|d|d|d|d|d|d]; try exact Hp;
      [now elim Hnil|].
    destruct d; try exact Hp; reflexivity.
  - now rewrite decimalLiteral_to_uint.
Qed.

Lemma negate_isNumber (a : value) : isNumber (negate a) = true.
Proof. now destruct a. Qed.

Lemma ofDigits_isNumber (radix : Z) (s : string) :
  isNumber (ofDigits radix s) = true.
Proof. unfold ofDigits. now destruct (wholeDigits radix s None). Qed.

Lemma scale_isNumber (m e : Z) : isNumber (scale m e) = true.
Proof.
  unfold scale. destruct (0 <=? e); [reflexivity|].
  now destruct (_ =? 0).
Qed.

Lemma decimalLiteral_isNumber (t : string) :
  isNumber (decimalLiteral t) = true.
Proof.
  unfold decimalLiteral. destruct (spanDigits t) as [ip r1].
  destruct (match r1 with String "." r => spanDigits r | _ => ("", r1) end)
    as [fp r2].
  destruct (_ && _); [reflexivity|].
  destruct r2 as [|c r3]; [apply scale_isNumber|].
  destruct (_ || _); [|reflexivity].
  destruct (match r3 with
            | String "-" r => (-1, r)
            | String "+" r => (1, r)
            | _ => (1, r3)
            end) as [esign r4].
  destruct (spanDigits r4) as [ed r5].
  destruct (_ || _); [reflexivity | apply scale_isNumber].
Qed.

(** [Number] and [parseInt] never return [undefined]. *)
Lemma Number_isNumber (s : string) : isNumber (Number s) = true.
Proof.
  unfold Number. destruct (trim s) as [|c r]; [reflexivity|].
  repeat match goal with
         | |- context [match ?x with _ => _ end] => is_var x; destruct x
         end;
    auto using negate_isNumber, ofDigits_isNumber, decimalLiteral_isNumber.
Qed.

Lemma parseInt_isNumber (s : string) : isNumber (parseInt s) = true.
Proof.
  unfold parseInt.
  repeat match goal with
         | |- context [match ?x with _ => _ end] => destruct x
         end; reflexivity.
Qed.

(** *** Splitting and joining *)

Lemma split_absent (sep : ascii) (s : string) :
  occurs sep s = false -> split sep s = [s].
Proof.
  induction s as [|c r IH]; simpl; intro H; [reflexivity|].
  apply orb_false_iff in H as [Hc Hr]. now rewrite Hc, (IH Hr).
Qed.

Lemma split_app (sep : ascii) (a b : string) :
  occurs sep a = false -> split sep (a ++ String sep b) = a :: split sep b.
Proof.
  induction a as [|c r IH]; simpl; intro H.
  - now rewrite Ascii.eqb_refl.
  - apply orb_false_iff in H as [Hc Hr]. now rewrite Hc, (IH Hr).
Qed.

Lemma split_join (sep : ascii) (l : list string) :
  l <> [] -> Forall (fun s => occurs sep s = false) l ->
  split sep (join sep l) = l.
Proof.
  intros Hne H. induction H as [|s rest Hs Hrest IH]; [now elim Hne|].
  destruct rest as [|s' rest'].
  - simpl. now apply split_absent.
  - change (join sep (s :: s' :: rest'))
      with (s ++ String sep (join sep (s' :: rest'))).
    rewrite split_app by exact Hs. f_equal. apply IH. discriminate.
Qed.

(** ** Well-formed matrices *)

Lemma distinctKeys_NoDup (store : Map.t) :
  distinctKeys store = true -> NoDup (map fst store).
Proof.
  induction store as [|[k v] rest IH]; simpl; intro H; [constructor|].
  apply andb_true_iff in H as [Hk Hrest]. constructor; [|now apply IH].
  rewrite <- has_In. now destruct (Map.has rest k).
Qed.

Lemma rowcol_key (row col : value) :
  plainNumber row = true -> plainNumber col = true ->
  rowcol (key row col) = (row, col).
Proof.
  intros Hr Hc. unfold rowcol, key.
  change (toString row ++ "," ++ toString col)
    with (toString row ++ String "," (toString col)).
  rewrite split_app
    by (apply plain_occurs; [reflexivity | now apply plain_toString]).
  rewrite split_absent
    by (apply plain_occurs; [reflexivity | now apply plain_toString]).
  cbn [map]. now rewrite !Number_toString.
Qed.

Lemma canonicalKey_key (row col : value) :
  plainNumber row = true -> plainNumber col = true ->
  canonicalKey (key row col) = true.
Proof.
  intros Hr Hc. unfold canonicalKey. rewrite rowcol_key by assumption.
  cbn [fst snd]. now rewrite Hr, Hc, String.eqb_refl.
Qed.

Lemma canonicalKey_inv (k : string) :
  canonicalKey k = true ->
  exists row col,
    plainNumber row = true /\ plainNumber col = true /\ k = key row col.
Proof.
  unfold canonicalKey. intro H.
  apply andb_true_iff in H as [H Hk]. apply andb_true_iff in H as [Hr Hc].
  apply String.eqb_eq in Hk. eauto.
Qed.

(** ** Serialized lines *)

Lemma plain_app (s t : string) : plain (s ++ t) = plain s && plain t.
Proof.
  unfold plain. induction s as [|c r IH]; simpl; [reflexivity|].
  now rewrite IH, andb_assoc.
Qed.

Lemma elementLine_canonical (row col v : value) :
  plainNumber row = true -> plainNumber col = true ->
  elementLine (key row col, v)
  = tupleLine (toString row) (toString col) (toString v).
Proof.
  intros Hr Hc. unfold elementLine, key. cbn [fst snd].
  change (toString row ++ "," ++ toString col)
    with (toString row ++ String "," (toString col)).
  rewrite split_app
    by (apply plain_occurs; [reflexivity | now apply plain_toString]).
  rewrite split_absent
    by (apply plain_occurs; [reflexivity | now apply plain_toString]).
  reflexivity.
Qed.

Lemma tupleLine_split (rs cs vs : string) :
  plain rs = true -> plain cs = true -> plain vs = true ->
  split "," (rs ++ ", " ++ cs ++ ", " ++ vs)
  = [rs; String " " cs; String " " vs].
Proof.
  intros Hr Hc Hv.
  change (rs ++ ", " ++ cs ++ ", " ++ vs)
    with (rs ++ String "," (String " " cs ++ String "," (String " " vs))).
  rewrite split_app by (now apply plain_occurs).
  rewrite split_app by (simpl; now apply plain_occurs).
  rewrite split_absent by (simpl; now apply plain_occurs).
  reflexivity.
Qed.

Lemma tupleLine_occurs (c : ascii) (rs cs vs : string) :
  plainChar c = false -> c <> "("%char -> c <> ")"%char -> c <> ","%char ->
  c <> " "%char ->
  plain rs = true -> plain cs = true -> plain vs = true ->
  occurs c (tupleLine rs cs vs) = false.
Proof.
  intros Hc H1 H2 H3 H4 Hr Hcs Hv. unfold tupleLine.
  rewrite !occurs_app, (plain_occurs c rs), (plain_occurs c cs),
    (plain_occurs c vs) by assumption. cbn [occurs].
  repeat match goal with
         | |- context [Ascii.eqb ?a c] =>
             destruct (Ascii.eqb_spec a c); [congruence|]
         end.
  reflexivity.
Qed.

Lemma tupleLine_inner (rs cs vs : string) :
  tupleLine rs cs vs = "(" ++ (rs ++ ", " ++ cs ++ ", " ++ vs) ++ ")".
Proof.
  unfold tupleLine. f_equal.
  repeat (rewrite append_assoc; cbn [append]). reflexivity.
Qed.

Lemma trim_tupleLine (rs cs vs : string) :
  trim (tupleLine rs cs vs) = tupleLine rs cs vs.
Proof.
  rewrite tupleLine_inner.
  exact (trim_parenthesized "" (rs ++ ", " ++ cs ++ ", " ++ vs) "").
Qed.

Lemma trim_leading_space (s : string) : trim (String " " s) = trim s.
Proof. reflexivity. Qed.

Lemma extractValues_tupleLine (rs cs vs : string) :
  plain rs = true -> plain cs = true -> plain vs = true ->
  extractValues (tupleLine rs cs vs) = Ok (parseInt rs, parseInt cs, parseInt vs).
Proof.
  intros Hr Hc Hv. rewrite tupleLine_inner.
  set (inner := rs ++ ", " ++ cs ++ ", " ++ vs).
  change ("(" ++ inner ++ ")") with ("(" ++ inner ++ (")" ++ "")).
  assert (Hinner : occurs ")" inner = false).
  { unfold inner.
    rewrite !occurs_app, (plain_occurs ")" rs), (plain_occurs ")" cs),
      (plain_occurs ")" vs) by auto.
    reflexivity. }
  assert (Hend : indexOf ("(" ++ inner ++ (")" ++ "")) ")"
                 = Z.of_nat (String.length "(" + String.length inner)).
  { unfold indexOf.
    change ("(" ++ inner ++ (")" ++ ""))
      with (("(" ++ inner) ++ String ")" "").
    rewrite indexOf_from_app by (simpl; exact Hinner).
    simpl String.length. lia. }
  unfold extractValues. rewrite Hend.
  change (indexOf ("(" ++ inner ++ (")" ++ "")) "(") with 0.
  change (0 =? -1) with false.
  destruct (Z.eqb_spec (Z.of_nat (String.length "(" + String.length inner)) (-1));
    [lia|]. cbn [orb].
  change (0 + 1) with (Z.of_nat (String.length "(")).
  rewrite slice_middle. unfold inner.
  rewrite tupleLine_split by assumption.
  now rewrite !trim_leading_space, !plain_trim.
Qed.

(** ** Round trip through the text *)

Lemma trimEnd_app_stable (a x : string) :
  trimEnd x = x -> x <> "" -> trimEnd (a ++ x) = a ++ x.
Proof.
  intros Hx Hne. induction a as [|c r IH]; simpl; [exact Hx|].
  rewrite IH. destruct (r ++ x) eqn:E; [|reflexivity].
  destruct r; simpl in E; [contradiction | discriminate].
Qed.

Lemma trimEnd_join (l : list string) :
  l <> [] -> Forall (fun s => trimEnd s = s /\ s <> "") l ->
  trimEnd (join LF l) = join LF l /\ join LF l <> "".
Proof.
  intros Hne H. induction H as [|s rest [Hs Hsne] Hrest IH]; [now elim Hne|].
  destruct rest as [|s' rest']; [simpl; auto|].
  change (join LF (s :: s' :: rest'))
    with (s ++ String LF (join LF (s' :: rest'))).
  destruct IH as [IH1 IH2]; [discriminate|].
  split.
  - apply trimEnd_app_stable; [|discriminate].
    cbn [trimEnd]. rewrite IH1.
    destruct (join LF (s' :: rest')); [now elim IH2 | reflexivity].
  - destruct s; [now elim Hsne | discriminate].
Qed.

Lemma prefix_app (p s : string) : String.prefix p (p ++ s) = true.
Proof.
  induction p as [|c r IH]; simpl; [now destruct s|].
  destruct (ascii_dec c c); [exact IH | congruence].
Qed.

Lemma drop_app (p s : string) : drop (String.length p) (p ++ s) = s.
Proof. induction p; simpl; auto. Qed.

Lemma replace_at_start (s pat rep : string) :
  String.prefix pat s = true ->
  replace s pat rep = rep ++ drop (String.length pat) s.
Proof. intro H. destruct s; cbn [replace]; now rewrite H. Qed.

Lemma replace_prefix (p s : string) : replace (p ++ s) p "" = s.
Proof. rewrite replace_at_start by apply prefix_app. apply drop_app. Qed.

Lemma extractNumber_header (prefix : string) (v : value) :
  plainNumber v = true ->
  extractNumber (Some (prefix ++ toString v)) prefix = Ok v.
Proof.
  intros Hv. unfold extractNumber, startsWith.
  rewrite prefix_app, replace_prefix. cbn [negb].
  now rewrite plain_trim, parseInt_toString by (auto using plain_toString).
Qed.

Lemma header_plain (prefix : string) (v : value) :
  plainNumber v = true ->
  prefix = "rows=" \/ prefix = "cols=" -> plain (prefix ++ toString v) = true.
Proof.
  intros Hv [->| ->]; rewrite plain_app, plain_toString by exact Hv;
    reflexivity.
Qed.

Lemma elementLine_wellFormed (kv : string * value) :
  canonicalKey (fst kv) = true ->
  exists row col,
    plainNumber row = true /\ plainNumber col = true /\ fst kv = key row col
    /\ elementLine kv = tupleLine (toString row) (toString col) (toString (snd kv)).
Proof.
  intro H. destruct kv as [k v]. simpl in *.
  destruct (canonicalKey_inv k H) as (row & col & Hr & Hc & ->).
  exists row, col. repeat split; auto. now apply elementLine_canonical.
Qed.

Lemma parseElements_elementLines (rows cols : value) (es acc : Map.t) :
  forallb (fun kv => canonicalKey (fst kv) && plainNumber (snd kv)) es = true ->
  noZeroEntry es ->
  NoDup (map fst (acc ++ es)%list) ->
  parseElements (map elementLine es) (mkMatrix rows cols acc)
  = Ok (mkMatrix rows cols (acc ++ es)%list).
Proof.
  revert acc. induction es as [|[k v] es IH]; intros acc Hwf Hnz Hnd.
  - simpl. now rewrite List.app_nil_r.
  - simpl in Hwf. apply andb_true_iff in Hwf as [Hkv Hwf].
    apply andb_true_iff in Hkv as [Hk Hv]. simpl in Hk, Hv.
    inversion Hnz as [|? ? Hv0 Hnz']; subst. simpl in Hv0.
    destruct (elementLine_wellFormed (k, v) Hk)
      as (row & col & Hr & Hc & Hkey & Hline).
    cbn [fst snd] in Hkey, Hline.
    cbn [map parseElements]. rewrite Hline, trim_tupleLine.
    destruct (String.eqb_spec (tupleLine (toString row) (toString col) (toString v)) "")
      as [E|_]; [discriminate|].
    rewrite extractValues_tupleLine by now apply plain_toString.
    rewrite !parseInt_toString by assumption.
    unfold setElement. cbn [numRows numCols elements].
    rewrite (proj2 (strict_neq_zero v) Hv0), <- Hkey.
    rewrite set_fresh.
    + rewrite IH; auto; rewrite <- List.app_assoc; [reflexivity | exact Hnd].
    + rewrite List.map_app in Hnd. simpl in Hnd.
      apply NoDup_remove_2 in Hnd. intro Hin. apply Hnd, in_or_app. now left.
Qed.

Lemma elementLine_line (kv : string * value) :
  canonicalKey (fst kv) = true -> plainNumber (snd kv) = true ->
  occurs LF (elementLine kv) = false
  /\ trimEnd (elementLine kv) = elementLine kv /\ elementLine kv <> "".
Proof.
  intros H Hv.
  destruct (elementLine_wellFormed kv H) as (row & col & Hr & Hc & _ & ->).
  repeat split.
  - apply tupleLine_occurs; try discriminate; try reflexivity;
      now apply plain_toString.
  - rewrite tupleLine_inner.
    exact (trimEnd_app ("(" ++ (toString row ++ ", " ++ toString col ++ ", "
                                 ++ toString (snd kv))) "" ")" eq_refl).
  - discriminate.
Qed.

Lemma forallb_and {A : Type} (p q : A -> bool) (l : list A) :
  forallb (fun x => p x && q x) l = forallb p l && forallb q l.
Proof.
  induction l as [|x l IH]; simpl; [reflexivity|]. rewrite IH.
  destruct (p x), (q x), (forallb p l); reflexivity.
Qed.

(** C6, as the code has it. For every well-formed matrix whose
    dimensions, indices and values print in plain notation (integers below
    10^21 in magnitude) and whose element mapping has no zero-valued entry,
    parsing the serialized text returns the matrix itself: the same
    dimensions and the same elements, in the same order. *)
Theorem parse_serialize_roundtrip (m : Matrix) :
  wellFormed m = true -> plainNotation m = true ->
  noZeroEntry (elements m) ->
  fromFile (serialize m) = Ok m.
Proof.
  destruct m as [rows cols es]. unfold wellFormed, plainNotation.
  cbn [numRows numCols elements]. intros Hwf Hpl Hnz.
  apply andb_true_iff in Hwf as [Hwf Hes]. apply andb_true_iff in Hwf as [_ Hd].
  apply andb_true_iff in Hpl as [Hpl Hvs].
  apply andb_true_iff in Hpl as [Hrows Hcols].
  rewrite forallb_and in Hes. apply andb_true_iff in Hes as [Hks _].
  assert (Hes : forallb (fun kv => canonicalKey (fst kv) && plainNumber (snd kv))
                        es = true)
    by (rewrite forallb_and, Hks, Hvs; reflexivity).
  set (lines := ("rows=" ++ toString rows) :: ("cols=" ++ toString cols)
                :: map elementLine es).
  assert (Hlines : Forall (fun s => occurs LF s = false
                                    /\ trimEnd s = s /\ s <> "") lines).
  { unfold lines. repeat constructor;
      try (apply plain_occurs; [reflexivity | apply header_plain; auto]);
      try (apply plain_trimEnd, header_plain; auto);
      try discriminate.
    apply Forall_map, Forall_forall. intros kv Hin.
    rewrite forallb_forall in Hes. specialize (Hes kv Hin).
    apply andb_true_iff in Hes as [Hk Hv]. now apply elementLine_line. }
  assert (Htext : serialize (mkMatrix rows cols es) = join LF lines) by reflexivity.
  assert (Htrim : trim (join LF lines) = join LF lines).
  { unfold trim.
    assert (Hs : trimStart (join LF lines) = join LF lines) by reflexivity.
    rewrite Hs. apply trimEnd_join; [discriminate|].
    eapply Forall_impl; [|exact Hlines]. now intros s (_ & H1 & H2). }
  unfold fromFile. rewrite Htext, Htrim, split_join;
    [|discriminate | eapply Forall_impl; [|exact Hlines]; now intros s (H & _)].
  unfold lines. cbn [nth_error skipn].
  rewrite !extractNumber_header by auto. cbn [bind].
  unfold new, Map.empty.
  rewrite parseElements_elementLines; auto.
  now apply distinctKeys_NoDup.
Qed.

(** The round trip of a 20x3 matrix with three entries. *)
Lemma parse_serialize_roundtrip_witness :
  let m := mkMatrix (Int 20) (Int 3)
             [("0,1", Int 5); ("12,2", Int (-70)); ("3,0", Int 1)] in
  wellFormed m = true /\ plainNotation m = true /\ noZeroEntry (elements m)
  /\ fromFile (serialize m) = Ok m.
Proof.
  intro m.
  assert (Hnz : noZeroEntry (elements m)) by (repeat constructor; discriminate).
  split; [reflexivity|]. split; [reflexivity|]. split; [exact Hnz|].
  exact (parse_serialize_roundtrip m eq_refl eq_refl Hnz).
Defined.

(** C6 as stated fails: the 1x1 matrix with the entry (0,0) = 10^21 is
    serialized with the value printed as [1e+21], which [parseInt] reads
    as 1. *)
Lemma roundtrip_exponent_notation :
  let m := build 1 1 [(0, 0, 1000000000000000000000)] in
  wellFormed m = true /\ noZeroEntry (elements m)
  /\ serialize m = join LF ["rows=1"; "cols=1"; "(0, 0, 1e+21)"]
  /\ fromFile (serialize m) = Ok (build 1 1 [(0, 0, 1)])
  /\ fromFile (serialize m) <> Ok m.
Proof.
  intro m. split; [reflexivity|].
  split; [repeat constructor; discriminate|].
  split; [reflexivity|]. split; [reflexivity|]. discriminate.
Qed.

(** ** Well-formedness is kept by the public interface *)

Lemma has_set (store : Map.t) (k k' : string) (v : value) :
  Map.has (Map.set store k v) k' = Map.has store k' || String.eqb k k'.
Proof.
  induction store as [|[k0 w] rest IH]; simpl.
  - now destruct (String.eqb k k').
  - destruct (String.eqb_spec k0 k) as [->|Hk]; simpl.
    + destruct (String.eqb k k'); [reflexivity | now rewrite orb_false_r].
    + rewrite IH. now destruct (String.eqb k0 k').
Qed.

Lemma distinctKeys_set (store : Map.t) (k : string) (v : value) :
  distinctKeys store = true -> distinctKeys (Map.set store k v) = true.
Proof.
  induction store as [|[k0 w] rest IH]; simpl; intro H; [reflexivity|].
  apply andb_true_iff in H as [H0 Hrest].
  destruct (String.eqb_spec k0 k) as [->|Hk]; simpl.
  - now rewrite H0, Hrest.
  - rewrite has_set, (IH Hrest).
    destruct (String.eqb_spec k k0) as [->|_]; [now elim Hk|].
    now rewrite orb_false_r, H0.
Qed.

Lemma forallb_set (p : string * value -> bool) (store : Map.t)
    (k : string) (v : value) :
  forallb p store = true -> p (k, v) = true ->
  forallb p (Map.set store k v) = true.
Proof.
  intros H Hp. induction store as [|[k0 w] rest IH]; simpl in *.
  - now rewrite Hp.
  - apply andb_true_iff in H as [H0 Hrest].
    destruct (String.eqb_spec k0 k) as [->|Hk]; simpl.
    + now rewrite Hp, Hrest.
    + now rewrite H0, IH.
Qed.

Lemma setElement_wellFormed (m : Matrix) (row col v : value) :
  plainNumber row = true -> plainNumber col = true -> isNumber v = true ->
  wellFormed m = true -> wellFormed (setElement m row col v) = true.
Proof.
  intros Hr Hc Hv. unfold wellFormed, setElement.
  destruct (strict_neq v (Int 0)); [|auto]. cbn [numRows numCols elements].
  intro H. apply andb_true_iff in H as [H Hall].
  apply andb_true_iff in H as [Hdims Hd].
  rewrite Hdims, distinctKeys_set, forallb_set; auto.
  cbn [fst snd]. now rewrite canonicalKey_key, Hv.
Qed.

Lemma wellFormed_entry (m : Matrix) (k : string) (v : value) :
  wellFormed m = true -> In (k, v) (elements m) ->
  plainNumber (fst (rowcol k)) = true /\ plainNumber (snd (rowcol k)) = true
  /\ isNumber v = true.
Proof.
  unfold wellFormed. intros H Hin.
  apply andb_true_iff in H as [_ Hall]. rewrite forallb_forall in Hall.
  specialize (Hall _ Hin). cbn [fst snd] in Hall.
  apply andb_true_iff in Hall as [Hk Hv]. unfold canonicalKey in Hk.
  apply andb_true_iff in Hk as [Hk _]. apply andb_true_iff in Hk as [Hr Hc].
  auto.
Qed.

Lemma forEach_invariant_In {S : Type} (P : S -> Prop) (store : Map.t)
    (callback : value -> string -> S -> S) (acc : S) :
  P acc ->
  (forall v k st, In (k, v) store -> P st -> P (callback v k st)) ->
  P (Map.forEach store callback acc).
Proof.
  unfold Map.forEach. revert acc.
  induction store as [|[k v] rest IH]; simpl; intros acc Hacc Hstep.
  - exact Hacc.
  - apply IH; [apply Hstep; auto | intros; apply Hstep; auto].
Qed.

Lemma plus_isNumber (a b : value) : isNumber (plus a b) = true.
Proof. now destruct a, b. Qed.

Lemma minus_isNumber (a b : value) : isNumber (minus a b) = true.
Proof. now destruct a, b. Qed.

Lemma new_wellFormed (rows cols : value) :
  isNumber rows = true -> isNumber cols = true ->
  wellFormed (new rows cols) = true.
Proof. intros Hr Hc. unfold wellFormed. simpl. now rewrite Hr, Hc. Qed.

Lemma wellFormed_dims (m : Matrix) :
  wellFormed m = true ->
  isNumber (numRows m) = true /\ isNumber (numCols m) = true.
Proof.
  unfold wellFormed. intro H. apply andb_true_iff in H as [H _].
  apply andb_true_iff in H as [H _]. now apply andb_true_iff in H.
Qed.

(** X14. What [fromFile] returns is well formed as soon as its indices print
    in plain notation. *)
Lemma fromFile_wellFormed (content : string) (m : Matrix) :
  fromFile content = Ok m ->
  forallb (fun kv => canonicalKey (fst kv)) (elements m) = true ->
  wellFormed m = true.
Proof.
  set (P := fun m : Matrix =>
              isNumber (numRows m) && isNumber (numCols m)
              && distinctKeys (elements m)
              && forallb (fun kv => isNumber (snd kv)) (elements m) = true).
  assert (HP : fromFile content = Ok m -> P m).
  { unfold fromFile.
    destruct (extractNumber _ "rows=") as [rows|e] eqn:Er;
      [cbn [bind]|discriminate].
    destruct (extractNumber _ "cols=") as [cols|e] eqn:Ec;
      [cbn [bind]|discriminate].
    assert (Hnum : forall line prefix v,
               extractNumber line prefix = Ok v -> isNumber v = true).
    { intros [line|] prefix v; unfold extractNumber; [|discriminate].
      destruct (negb _); [discriminate|]. intros [= <-].
      apply parseInt_isNumber. }
    assert (H0 : P (new rows cols)).
    { unfold P. cbn. now rewrite (Hnum _ _ _ Er), (Hnum _ _ _ Ec). }
    revert H0. generalize (new rows cols).
    generalize (skipn 2 (split LF (trim content))). intro lines.
    induction lines as [|l rest IH]; simpl; intros m0 H0.
    - now intros [= <-].
    - destruct (String.eqb (trim l) ""); [now apply IH|].
      destruct (extractValues (trim l)) as [[[row col] v]|e] eqn:Ev;
        [|discriminate].
      apply IH. unfold extractValues in Ev.
      destruct (_ || _); [discriminate|].
      destruct (split "," _) as [|v0 [|v1 [|v2 [|v3 t]]]]; try discriminate.
      injection Ev as <- <- <-.
      unfold setElement. destruct (strict_neq _ _); [|exact H0].
      unfold P in H0 |- *. cbn [numRows numCols elements].
      apply andb_true_iff in H0 as [H0 Hv].
      apply andb_true_iff in H0 as [Hdims Hd].
      rewrite Hdims, distinctKeys_set, forallb_set; auto.
      cbn [snd]. apply parseInt_isNumber. }
  intros Hm Hk. specialize (HP Hm). unfold P in HP. unfold wellFormed.
  apply andb_true_iff in HP as [HP Hv]. now rewrite forallb_and, HP, Hk, Hv.
Qed.

Lemma add_wellFormed (a b m : Matrix) :
  wellFormed a = true -> wellFormed b = true ->
  add a b = Ok m -> wellFormed m = true.
Proof.
  intros Ha Hb. unfold add.
  destruct (_ || _); [discriminate|]. intros [= <-].
  destruct (wellFormed_dims a Ha) as [Hr Hc].
  apply forEach_invariant_In; [apply forEach_invariant_In|].
  - now apply new_wellFormed.
  - intros v k st Hin Hst.
    destruct (wellFormed_entry a k v Ha Hin) as (H1 & H2 & _).
    destruct (rowcol k). apply setElement_wellFormed; auto using plus_isNumber.
  - intros v k st Hin Hst. destruct (negb _); [|exact Hst].
    destruct (wellFormed_entry b k v Hb Hin) as (H1 & H2 & H3).
    destruct (rowcol k). now apply setElement_wellFormed.
Qed.

Lemma subtract_wellFormed (a b m : Matrix) :
  wellFormed a = true -> wellFormed b = true ->
  subtract a b = Ok m -> wellFormed m = true.
Proof.
  intros Ha Hb. unfold subtract.
  destruct (_ || _); [discriminate|]. intros [= <-].
  destruct (wellFormed_dims a Ha) as [Hr Hc].
  apply forEach_invariant_In; [apply forEach_invariant_In|].
  - now apply new_wellFormed.
  - intros v k st Hin Hst.
    destruct (wellFormed_entry a k v Ha Hin) as (H1 & H2 & _).
    destruct (rowcol k). apply setElement_wellFormed; auto using minus_isNumber.
  - intros v k st Hin Hst. destruct (negb _); [|exact Hst].
    destruct (wellFormed_entry b k v Hb Hin) as (H1 & H2 & H3).
    destruct (rowcol k). apply setElement_wellFormed; auto using negate_isNumber.
Qed.

Lemma multiply_wellFormed (a b m : Matrix) :
  wellFormed a = true -> wellFormed b = true ->
  multiply a b = Ok m -> wellFormed m = true.
Proof.
  intros Ha Hb. unfold multiply.
  destruct (strict_neq _ _); [discriminate|]. intros [= <-].
  destruct (wellFormed_dims a Ha) as [Hr _].
  destruct (wellFormed_dims b Hb) as [_ Hc].
  apply forEach_invariant_In; [now apply new_wellFormed|].
  intros valueA keyA st HinA Hst.
  destruct (wellFormed_entry a keyA valueA Ha HinA) as (H1 & _ & _).
  destruct (rowcol keyA) as [rowA colA].
  apply forEach_invariant_In; [exact Hst|].
  intros valueB keyB st' HinB Hst'.
  destruct (wellFormed_entry b keyB valueB Hb HinB) as (_ & H2 & _).
  destruct (rowcol keyB) as [rowB colB].
  destruct (strict_eq colA rowB); [|exact Hst'].
  apply setElement_wellFormed; auto using plus_isNumber.
Qed.

(** ** What [add] and [subtract] compute *)

Lemma canonicalKey_rowcol (k : string) :
  canonicalKey k = true -> key (fst (rowcol k)) (snd (rowcol k)) = k.
Proof.
  unfold canonicalKey. intro H. apply andb_true_iff in H as [_ H].
  now apply String.eqb_eq.
Qed.

Lemma get_set (store : Map.t) (k k' : string) (v : value) :
  Map.get (Map.set store k v) k'
  = if String.eqb k k' then v else Map.get store k'.
Proof.
  destruct (String.eqb_spec k k') as [->|Hne];
    [apply get_set_same | now apply get_set_other].
Qed.

Section TwoPasses.

Variable other : Matrix.
Variable f : value -> value -> value.
Variable g : value -> value.

Lemma firstPass_canonical (v : value) (k : string) (result : Matrix) :
  canonicalKey k = true ->
  firstPass other f v k result = setAt result k (f v (valueAt other k)).
Proof.
  intro H. apply canonicalKey_rowcol in H. unfold firstPass.
  destruct (rowcol k) as [row col]. cbn [fst snd] in H.
  unfold setElement, getElement, setAt, valueAt. now rewrite H.
Qed.

Lemma secondPass_canonical (v : value) (k : string) (result : Matrix) :
  canonicalKey k = true ->
  secondPass g v k result
  = if Map.has (elements result) k then result else setAt result k (g v).
Proof.
  intro H. apply canonicalKey_rowcol in H. unfold secondPass.
  destruct (Map.has (elements result) k); [reflexivity|]. cbn [negb].
  destruct (rowcol k) as [row col]. cbn [fst snd] in H.
  unfold setElement, setAt. now rewrite H.
Qed.

Lemma firstPass_result (store : Map.t) (acc : Matrix) (k : string) :
  distinctKeys store = true ->
  forallb (fun kv => canonicalKey (fst kv)) store = true ->
  let result := Map.forEach store (firstPass other f) acc in
  let s := f (Map.get store k) (valueAt other k) in
  Map.get (elements result) k
    = (if Map.has store k && strict_neq s (Int 0) then s
       else Map.get (elements acc) k)
  /\ Map.has (elements result) k
    = Map.has store k && strict_neq s (Int 0) || Map.has (elements acc) k.
Proof.
  unfold Map.forEach. revert acc.
  induction store as [|[k0 v0] rest IH]; intros acc Hd Hc; [now split|].
  cbn [distinctKeys] in Hd. apply andb_true_iff in Hd as [Hk0 Hd].
  cbn [forallb fst] in Hc. apply andb_true_iff in Hc as [Hc0 Hc].
  cbn [fold_left fst snd]. rewrite firstPass_canonical by exact Hc0.
  destruct (IH (setAt acc k0 (f v0 (valueAt other k0))) Hd Hc) as [IHg IHh].
  cbv zeta in IHg, IHh. cbv zeta. rewrite IHg, IHh. clear IHg IHh IH.
  cbn [Map.has Map.get].
  destruct (String.eqb_spec k0 k) as [->|Hne].
  - apply negb_true_iff in Hk0. rewrite Hk0. cbn [andb orb].
    unfold setAt.
    destruct (strict_neq (f v0 (valueAt other k)) (Int 0));
      cbn [elements]; [|now split].
    now rewrite get_set_same, has_set_same.
  - unfold setAt. destruct (strict_neq (f v0 (valueAt other k0)) (Int 0));
      cbn [elements]; [|now split].
    rewrite get_set, has_set.
    destruct (String.eqb_spec k0 k); [contradiction|].
    now rewrite orb_false_r.
Qed.

Lemma secondPass_result (store : Map.t) (acc : Matrix) (k : string) :
  distinctKeys store = true ->
  forallb (fun kv => canonicalKey (fst kv)) store = true ->
  let result := Map.forEach store (secondPass g) acc in
  let s := g (Map.get store k) in
  Map.get (elements result) k
    = if Map.has (elements acc) k then Map.get (elements acc) k
      else if Map.has store k && strict_neq s (Int 0) then s
      else Map.get (elements acc) k.
Proof.
  unfold Map.forEach. revert acc.
  induction store as [|[k0 v0] rest IH]; intros acc Hd Hc.
  - cbn. now destruct (Map.has (elements acc) k).
  - cbn [distinctKeys] in Hd. apply andb_true_iff in Hd as [Hk0 Hd].
    cbn [forallb fst] in Hc. apply andb_true_iff in Hc as [Hc0 Hc].
    cbn [fold_left fst snd]. rewrite secondPass_canonical by exact Hc0.
    cbv zeta. cbv zeta in IH. rewrite IH by assumption. clear IH.
    cbn [Map.has Map.get].
    destruct (String.eqb_spec k0 k) as [->|Hne].
    + apply negb_true_iff in Hk0. rewrite Hk0. cbn [andb].
      destruct (Map.has (elements acc) k) eqn:Hacc.
      * now rewrite Hacc.
      * unfold setAt. destruct (strict_neq (g v0) (Int 0));
          cbn [elements andb].
        -- now rewrite has_set_same, get_set_same.
        -- now rewrite Hacc.
    + destruct (Map.has (elements acc) k0) eqn:Hacc0; [reflexivity|].
      unfold setAt. destruct (strict_neq (g v0) (Int 0));
        cbn [elements]; [|reflexivity].
      rewrite get_set, has_set.
      destruct (String.eqb_spec k0 k); [contradiction|].
      now rewrite orb_false_r.
Qed.

End TwoPasses.

Lemma wellFormed_store (m : Matrix) :
  wellFormed m = true ->
  distinctKeys (elements m) = true
  /\ forallb (fun kv => canonicalKey (fst kv)) (elements m) = true.
Proof.
  unfold wellFormed. intro H. apply andb_true_iff in H as [H Hall].
  apply andb_true_iff in H as [_ Hd]. split; [exact Hd|].
  apply forallb_forall. intros kv Hin. rewrite forallb_forall in Hall.
  specialize (Hall kv Hin). now apply andb_true_iff in Hall.
Qed.

Lemma integral_lookup (m : Matrix) (k : string) :
  integral m = true ->
  (Map.has (elements m) k = true /\ exists z, Map.get (elements m) k = Int z)
  \/ (Map.has (elements m) k = false /\ Map.get (elements m) k = Undefined).
Proof.
  unfold integral. induction (elements m) as [|[k0 v0] rest IH]; simpl; intro H.
  - now right.
  - apply andb_true_iff in H as [H0 Hrest].
    destruct (String.eqb k0 k); [|now apply IH].
    left. split; [reflexivity|]. destruct v0; try discriminate. eauto.
Qed.

Section IntegerPasses.

Variable f : value -> value -> value.
Variable g : value -> value.
Variable F : Z -> Z -> Z.
Variable G : Z -> Z.
Hypothesis f_Int : forall x y, f (Int x) (Int y) = Int (F x y).
Hypothesis g_Int : forall y, g (Int y) = Int (G y).
Hypothesis G_zero : G 0 = 0.
Hypothesis F_zero : forall y, F 0 y = G y.

Lemma twoPasses_value (a b : Matrix) (rows cols : value) (r c : Z) :
  wellFormed a = true -> wellFormed b = true ->
  integral a = true -> integral b = true ->
  let x := entryZ a r c in
  let y := entryZ b r c in
  getElement
    (Map.forEach (elements b) (secondPass g)
       (Map.forEach (elements a) (firstPass b f) (new rows cols)))
    (Int r) (Int c)
  = Int (if F x y =? 0 then G y else F x y).
Proof.
  intros Ha Hb Hia Hib x y.
  destruct (wellFormed_store a Ha) as [Hda Hca].
  destruct (wellFormed_store b Hb) as [Hdb Hcb].
  set (k := key (Int r) (Int c)).
  assert (Hy : valueAt b k = Int y).
  { unfold y, entryZ, getElement, valueAt. fold k.
    destruct (integral_lookup b k Hib) as [[_ [z ->]]|[_ ->]];
      [now rewrite or_zero_Int | reflexivity]. }
  unfold getElement. fold k.
  rewrite (secondPass_result g (elements b) _ k Hdb Hcb).
  destruct (firstPass_result b f (elements a) (new rows cols) k Hda Hca)
    as [Hget Hhas].
  cbv zeta in Hget, Hhas. rewrite Hget, Hhas, Hy. clear Hget Hhas.
  change (Map.has (elements (new rows cols)) k) with false.
  change (Map.get (elements (new rows cols)) k) with Undefined.
  rewrite orb_false_r.
  assert (Hb' : (Map.has (elements b) k = true
                 /\ Map.get (elements b) k = Int y)
                \/ (Map.has (elements b) k = false /\ y = 0)).
  { unfold valueAt in Hy.
    destruct (integral_lookup b k Hib) as [[Hh [z Hz]]|[Hh Hz]];
      rewrite Hz in Hy.
    - left. rewrite or_zero_Int in Hy. now rewrite Hz, Hy.
    - right. split; [exact Hh|]. cbn in Hy. congruence. }
  assert (Hsecond :
            JS.or (if Map.has (elements b) k
                      && strict_neq (g (Map.get (elements b) k)) (Int 0)
                   then g (Map.get (elements b) k) else Undefined) (Int 0)
            = Int (G y)).
  { destruct Hb' as [[-> ->]|[-> ->]]; cbn [andb].
    - rewrite g_Int. destruct (strict_neq (Int (G y)) (Int 0)) eqn:E.
      + apply or_zero_Int.
      + apply strict_neq_zero_false in E. now rewrite E.
    - now rewrite G_zero. }
  destruct (integral_lookup a k Hia) as [[Hh [z Hz]]|[Hh Hz]].
  - assert (Hx : x = z).
    { unfold x, entryZ, getElement. fold k. now rewrite Hz, or_zero_Int. }
    rewrite Hh, Hz, f_Int, Hx. cbn [andb].
    destruct (Z.eqb_spec (F z y) 0) as [E|E].
    + rewrite E. change (strict_neq (Int 0) (Int 0)) with false.
      cbn iota. exact Hsecond.
    + rewrite (proj2 (strict_neq_Int (F z y) 0) E). apply or_zero_Int.
  - assert (Hx : x = 0).
    { unfold x, entryZ, getElement. fold k. now rewrite Hz. }
    rewrite Hh, Hx, F_zero. cbn [andb]. rewrite Hsecond.
    now destruct (G y =? 0).
Qed.

End IntegerPasses.

(** X7. On well-formed matrices of safe integers and of equal dimensions,
    [add] returns at a position the sum of the operands' entries, provided
    that sum is safe (so that the engine adds without rounding), except
    where the sum is 0: there it returns the second operand's entry. *)
Theorem add_elements (a b m : Matrix) (r c : Z) :
  wellFormed a = true -> wellFormed b = true ->
  integral a = true -> integral b = true ->
  safeNumbers a = true -> safeNumbers b = true ->
  safeInteger r = true -> safeInteger c = true ->
  safeInteger (entryZ a r c + entryZ b r c) = true ->
  add a b = Ok m ->
  getElement m (Int r) (Int c)
  = Int (if entryZ a r c + entryZ b r c =? 0 then entryZ b r c
         else entryZ a r c + entryZ b r c).
Proof.
  intros Ha Hb Hia Hib _ _ _ _ _. unfold add.
  destruct (_ || _); [discriminate|]. intros [= <-].
  exact (twoPasses_value plus (fun v => v) Z.add (fun y => y)
           (fun x y => eq_refl) (fun y => eq_refl) eq_refl (fun y => eq_refl)
           a b _ _ r c Ha Hb Hia Hib).
Qed.

(** X8. On well-formed matrices of safe integers and of equal dimensions,
    [subtract] returns at a position the difference of the operands'
    entries, provided that difference is safe, except where the
    difference is 0: there it returns the negated entry of the second
    operand. *)
Theorem subtract_elements (a b m : Matrix) (r c : Z) :
  wellFormed a = true -> wellFormed b = true ->
  integral a = true -> integral b = true ->
  safeNumbers a = true -> safeNumbers b = true ->
  safeInteger r = true -> safeInteger c = true ->
  safeInteger (entryZ a r c - entryZ b r c) = true ->
  subtract a b = Ok m ->
  getElement m (Int r) (Int c)
  = Int (if entryZ a r c - entryZ b r c =? 0 then - entryZ b r c
         else entryZ a r c - entryZ b r c).
Proof.
  intros Ha Hb Hia Hib _ _ _ _ _. unfold subtract.
  destruct (_ || _); [discriminate|]. intros [= <-].
  exact (twoPasses_value minus negate Z.sub Z.opp
           (fun x y => eq_refl) (fun y => eq_refl) eq_refl (fun y => eq_refl)
           a b _ _ r c Ha Hb Hia Hib).
Qed.


(** * Further properties of the code *)

(** ** Safe integers *)

Lemma safeInteger_plain (z : Z) :
  safeInteger z = true -> plainNumber (Int z) = true.
Proof.
  unfold safeInteger, maxSafeInteger. cbn [plainNumber]. intro H.
  apply Z.leb_le in H. apply Z.ltb_lt. lia.
Qed.

Lemma safeTriples_plain (rows cols : Z) (l : list (Z * Z * Z)) :
  safeTriples rows cols l = true -> plainTriples rows cols l = true.
Proof.
  unfold safeTriples, plainTriples. intro H.
  apply andb_true_iff in H as [H Hl]. apply andb_true_iff in H as [Hr Hc].
  rewrite !safeInteger_plain by assumption. cbn [andb].
  apply forallb_forall. intros [[r c] v] Hin.
  rewrite forallb_forall in Hl. specialize (Hl _ Hin). cbn beta iota in Hl.
  apply andb_true_iff in Hl as [Hl Hv]. apply andb_true_iff in Hl as [Hr' Hc'].
  now rewrite !safeInteger_plain.
Qed.

(** ** The map *)

Lemma set_keys (store : Map.t) (k : string) (v : value) :
  map fst (Map.set store k v)
  = if Map.has store k then map fst store else (map fst store ++ [k])%list.
Proof.
  induction store as [|[k0 w] rest IH]; simpl; [reflexivity|].
  destruct (String.eqb k0 k); simpl; [reflexivity|].
  rewrite IH. now destruct (Map.has rest k).
Qed.

(** X1. [set] then [get] and [has], on ordinary keys: the key written holds
    the new value, every other key is as before. *)
Theorem Map_set_lookup (store : Map.t) (k k' : string) (v : value) :
  ordinaryKeys store = true -> ordinaryKey k = true ->
  Map.get (Map.set store k v) k'
  = (if String.eqb k k' then v else Map.get store k')
  /\ Map.has (Map.set store k v) k' = (Map.has store k' || String.eqb k k').
Proof. intros _ _. split; [apply get_set | apply has_set]. Qed.

Lemma Map_set_lookup_witness :
  ordinaryKeys [("0,1", Int 4); ("size", Int 2)] = true
  /\ ordinaryKey "1,1" = true
  /\ Map.get (Map.set [("0,1", Int 4); ("size", Int 2)] "1,1" (Int 7)) "size"
     = Int 2
  /\ Map.has (Map.set [("0,1", Int 4); ("size", Int 2)] "1,1" (Int 7)) "1,1"
     = true.
Proof.
  split; [reflexivity|]. split; [reflexivity|].
  pose proof (Map_set_lookup [("0,1", Int 4); ("size", Int 2)] "1,1" "size"
                (Int 7) eq_refl eq_refl) as H1.
  pose proof (Map_set_lookup [("0,1", Int 4); ("size", Int 2)] "1,1" "1,1"
                (Int 7) eq_refl eq_refl) as H2.
  split; [exact (proj1 H1) | exact (proj2 H2)].
Defined.

(** X2. [set] keeps the enumeration order of ordinary keys: a key that is
    present stays where it is, a new key goes to the end, and [forEach]
    visits the keys in that order. *)
Theorem Map_set_keys (store : Map.t) (k : string) (v : value) :
  ordinaryKeys store = true -> ordinaryKey k = true ->
  map fst (Map.set store k v)
  = (if Map.has store k then map fst store else (map fst store ++ [k])%list)
  /\ Map.forEach (Map.set store k v) (fun _ key visited => (visited ++ [key])%list) []
     = map fst (Map.set store k v).
Proof.
  intros _ _. split; [apply set_keys|].
  unfold Map.forEach.
  assert (H : forall (l : Map.t) (acc : list string),
             fold_left (fun st kv => (st ++ [fst kv])%list) l acc
             = (acc ++ map fst l)%list).
  { induction l as [|kv l IH]; intro acc; simpl.
    - now rewrite List.app_nil_r.
    - rewrite IH, <- List.app_assoc. reflexivity. }
  apply (H _ []).
Qed.

Lemma Map_set_keys_witness :
  ordinaryKeys [("0,1", Int 4); ("size", Int 2)] = true
  /\ ordinaryKey "0,0" = true
  /\ Map.forEach (Map.set [("0,1", Int 4); ("size", Int 2)] "0,0" (Int 7))
       (fun _ key visited => (visited ++ [key])%list) []
     = ["0,1"; "size"; "0,0"].
Proof.
  split; [reflexivity|]. split; [reflexivity|].
  exact (eq_trans
           (proj2 (Map_set_keys [("0,1", Int 4); ("size", Int 2)] "0,0" (Int 7)
                     eq_refl eq_refl))
           eq_refl).
Defined.

Lemma find_last {A : Type} (p : A -> bool) (l : list A) (x : A) :
  find p (l ++ [x])
  = match find p l with
    | Some y => Some y
    | None => if p x then Some x else None
    end.
Proof.
  induction l as [|y l IH]; simpl; [reflexivity|]. now destruct (p y).
Qed.

Lemma setAll_get (l : list (string * value)) (store : Map.t) (k : string) :
  Map.get (setAll store l) k
  = match find (fun kv => String.eqb (fst kv) k) (List.rev l) with
    | Some kv => snd kv
    | None => Map.get store k
    end.
Proof.
  unfold setAll. revert store.
  induction l as [|[k0 v0] l IH]; intro store; simpl; [reflexivity|].
  rewrite IH, find_last.
  destruct (find _ (List.rev l)); [reflexivity|]. cbn [fst snd].
  rewrite get_set. now destruct (String.eqb k0 k).
Qed.

Lemma setAll_has (l : list (string * value)) (store : Map.t) (k : string) :
  Map.has (setAll store l) k = true
  <-> Map.has store k = true \/ In k (map fst l).
Proof.
  unfold setAll. revert store.
  induction l as [|[k0 v0] l IH]; intro store; simpl; [tauto|].
  rewrite IH, has_set, orb_true_iff, String.eqb_eq. tauto.
Qed.

Lemma setAll_distinct (l : list (string * value)) (store : Map.t) :
  distinctKeys store = true -> distinctKeys (setAll store l) = true.
Proof.
  unfold setAll. revert store.
  induction l as [|[k0 v0] l IH]; intros store H; simpl; [exact H|].
  now apply IH, distinctKeys_set.
Qed.

(** X3. A map filled by a sequence of [set] calls on ordinary keys holds
    exactly the keys written, each once, with the value written last; a
    key never written reads as [undefined]. *)
Theorem Map_last_write (l : list (string * value)) (k : string) :
  ordinaryKeys l = true ->
  distinctKeys (setAll Map.empty l) = true
  /\ Map.get (setAll Map.empty l) k = lastWrite l k
  /\ (Map.has (setAll Map.empty l) k = true <-> In k (map fst l)).
Proof.
  intros _. split; [now apply setAll_distinct|]. split.
  - unfold lastWrite. rewrite setAll_get.
    now destruct (find _ (List.rev l)).
  - rewrite setAll_has. simpl. intuition discriminate.
Qed.

Lemma Map_last_write_witness :
  ordinaryKeys [("0,0", Int 5); ("1,1", Int 3); ("0,0", Int 9)] = true
  /\ Map.get (setAll Map.empty [("0,0", Int 5); ("1,1", Int 3); ("0,0", Int 9)])
       "0,0"
     = Int 9
  /\ Map.get (setAll Map.empty [("0,0", Int 5); ("1,1", Int 3); ("0,0", Int 9)])
       "2,2"
     = Undefined.
Proof.
  split; [reflexivity|].
  split.
  - exact (proj1 (proj2 (Map_last_write
                           [("0,0", Int 5); ("1,1", Int 3); ("0,0", Int 9)]
                           "0,0" eq_refl))).
  - exact (proj1 (proj2 (Map_last_write
                           [("0,0", Int 5); ("1,1", Int 3); ("0,0", Int 9)]
                           "2,2" eq_refl))).
Defined.

(** ** Positions *)

Lemma key_injective (row col row' col' : value) :
  plainNumber row = true -> plainNumber col = true ->
  plainNumber row' = true -> plainNumber col' = true ->
  key row col = key row' col' -> row = row' /\ col = col'.
Proof.
  intros Hr Hc Hr' Hc' H.
  pose proof (rowcol_key row col Hr Hc) as E.
  rewrite H, rowcol_key in E by assumption. now injection E.
Qed.

(** X4. Writing at one position leaves every other position as it was. *)
Theorem setElement_other_position (m : Matrix) (row col v row' col' : value) :
  plainNumber row = true -> plainNumber col = true ->
  plainNumber row' = true -> plainNumber col' = true ->
  (row, col) <> (row', col') ->
  getElement (setElement m row col v) row' col' = getElement m row' col'.
Proof.
  intros Hr Hc Hr' Hc' Hne. unfold getElement, setElement.
  destruct (strict_neq v (Int 0)); [|reflexivity]. cbn [elements].
  rewrite get_set_other; [reflexivity|].
  intro H. apply key_injective in H as [<- <-]; auto.
Qed.

Lemma setElement_other_position_witness :
  getElement (setElement scenarioA (Int 0) (Int 1) (Int 9)) (Int 1) (Int 1)
  = getElement scenarioA (Int 1) (Int 1).
Proof.
  apply setElement_other_position; try reflexivity. discriminate.
Defined.

(** X22. On a matrix whose stored values are integers, [getElement]
    returns the stored value where an entry is present and 0 where none
    is. *)
Theorem getElement_integral (m : Matrix) (row col : value) :
  integral m = true ->
  getElement m row col
  = if Map.has (elements m) (key row col)
    then Map.get (elements m) (key row col)
    else Int 0.
Proof.
  intro Hi. rewrite getElement_total.
  destruct (integral_lookup m (key row col) Hi) as [[Hh [z Hz]]|[Hh _]];
    rewrite Hh; [now rewrite Hz | reflexivity].
Qed.

Lemma getElement_integral_witness :
  integral scenarioA = true
  /\ getElement scenarioA (Int 1) (Int 1) = Int 3
  /\ getElement scenarioA (Int 0) (Int 1) = Int 0.
Proof.
  split; [reflexivity|]. split.
  - exact (eq_trans (getElement_integral scenarioA (Int 1) (Int 1) eq_refl)
                    eq_refl).
  - exact (eq_trans (getElement_integral scenarioA (Int 0) (Int 1) eq_refl)
                    eq_refl).
Defined.

(** ** The results of the operations *)

(** X5. The sum and the difference have the dimensions of the first operand. *)
Theorem sum_difference_dimensions (a b : Matrix) :
  (forall m, add a b = Ok m ->
     numRows m = numRows a /\ numCols m = numCols a)
  /\ (forall m, subtract a b = Ok m ->
     numRows m = numRows a /\ numCols m = numCols a).
Proof.
  split; intros m H; split;
    eauto using add_numRows, add_numCols, subtract_numRows, subtract_numCols.
Qed.

(** X6. The three operations return well-formed matrices on well-formed
    operands. *)
Theorem operations_wellFormed (a b : Matrix) :
  wellFormed a = true -> wellFormed b = true ->
  (forall m, add a b = Ok m -> wellFormed m = true)
  /\ (forall m, subtract a b = Ok m -> wellFormed m = true)
  /\ (forall m, multiply a b = Ok m -> wellFormed m = true).
Proof.
  intros Ha Hb. repeat split; intros m H;
    eauto using add_wellFormed, subtract_wellFormed, multiply_wellFormed.
Qed.

Lemma operations_wellFormed_witness :
  wellFormed scenarioA = true /\ wellFormed scenarioB = true
  /\ (forall m, multiply scenarioA scenarioB = Ok m -> wellFormed m = true).
Proof.
  split; [reflexivity|]. split; [reflexivity|].
  exact (proj2 (proj2 (operations_wellFormed scenarioA scenarioB eq_refl eq_refl))).
Defined.

Lemma add_elements_witness :
  wellFormed scenarioA = true /\ wellFormed scenarioB = true
  /\ integral scenarioA = true /\ integral scenarioB = true
  /\ safeNumbers scenarioA = true /\ safeNumbers scenarioB = true
  /\ safeInteger (entryZ scenarioA 0 0 + entryZ scenarioB 0 0) = true
  /\ add scenarioA scenarioB
     = Ok (mkMatrix (Int 2) (Int 2)
             [("0,0", Int 7); ("1,1", Int 3); ("0,1", Int 4)])
  /\ getElement (mkMatrix (Int 2) (Int 2)
                   [("0,0", Int 7); ("1,1", Int 3); ("0,1", Int 4)])
                (Int 0) (Int 0)
     = Int (if entryZ scenarioA 0 0 + entryZ scenarioB 0 0 =? 0
            then entryZ scenarioB 0 0
            else entryZ scenarioA 0 0 + entryZ scenarioB 0 0).
Proof.
  repeat (split; [reflexivity|]).
  exact (add_elements scenarioA scenarioB _ 0 0 eq_refl eq_refl eq_refl eq_refl
           eq_refl eq_refl eq_refl eq_refl eq_refl eq_refl).
Defined.

Lemma subtract_elements_witness :
  wellFormed scenarioA = true /\ wellFormed scenarioB = true
  /\ integral scenarioA = true /\ integral scenarioB = true
  /\ safeNumbers scenarioA = true /\ safeNumbers scenarioB = true
  /\ safeInteger (entryZ scenarioA 0 1 - entryZ scenarioB 0 1) = true
  /\ subtract scenarioA scenarioB
     = Ok (mkMatrix (Int 2) (Int 2)
             [("0,0", Int 3); ("1,1", Int 3); ("0,1", Int (-4))])
  /\ getElement (mkMatrix (Int 2) (Int 2)
                   [("0,0", Int 3); ("1,1", Int 3); ("0,1", Int (-4))])
                (Int 0) (Int 1)
     = Int (if entryZ scenarioA 0 1 - entryZ scenarioB 0 1 =? 0
            then - entryZ scenarioB 0 1
            else entryZ scenarioA 0 1 - entryZ scenarioB 0 1).
Proof.
  repeat (split; [reflexivity|]).
  exact (subtract_elements scenarioA scenarioB _ 0 1 eq_refl eq_refl eq_refl
           eq_refl eq_refl eq_refl eq_refl eq_refl eq_refl eq_refl).
Defined.

Lemma firstPass_copies (other : Matrix) (f : value -> value -> value)
    (rows cols : value) (es acc : Map.t) :
  (forall k, valueAt other k = Int 0) ->
  (forall z, f (Int z) (Int 0) = Int z) ->
  forallb (fun kv => canonicalKey (fst kv)) es = true ->
  forallb (fun kv => match snd kv with Int _ => true | _ => false end) es = true ->
  noZeroEntry es ->
  NoDup (map fst (acc ++ es)%list) ->
  Map.forEach es (firstPass other f) (mkMatrix rows cols acc)
  = mkMatrix rows cols (acc ++ es)%list.
Proof.
  intros Hother Hf. unfold Map.forEach. revert acc.
  induction es as [|[k v] es IH]; intros acc Hc Hi Hnz Hnd; simpl.
  - now rewrite List.app_nil_r.
  - simpl in Hc, Hi. apply andb_true_iff in Hc as [Hk Hc].
    apply andb_true_iff in Hi as [Hv Hi].
    inversion Hnz as [|? ? Hv0 Hnz']; subst. cbn [snd] in Hv0.
    destruct v as [z| |]; try discriminate.
    rewrite firstPass_canonical, Hother, Hf by exact Hk.
    unfold setAt. rewrite (proj2 (strict_neq_zero (Int z)) Hv0).
    cbn [numRows numCols elements]. rewrite set_fresh.
    + rewrite IH; auto; rewrite <- List.app_assoc; [reflexivity | exact Hnd].
    + rewrite List.map_app in Hnd. simpl in Hnd.
      apply NoDup_remove_2 in Hnd. intro Hin. apply Hnd, in_or_app. now left.
Qed.

Lemma secondPass_copies (g : value -> value)
    (rows cols : value) (es acc : Map.t) :
  (forall z, g (Int z) = Int z) ->
  forallb (fun kv => canonicalKey (fst kv)) es = true ->
  forallb (fun kv => match snd kv with Int _ => true | _ => false end) es = true ->
  noZeroEntry es ->
  NoDup (map fst (acc ++ es)%list) ->
  Map.forEach es (secondPass g) (mkMatrix rows cols acc)
  = mkMatrix rows cols (acc ++ es)%list.
Proof.
  intros Hg. unfold Map.forEach. revert acc.
  induction es as [|[k v] es IH]; intros acc Hc Hi Hnz Hnd; simpl.
  - now rewrite List.app_nil_r.
  - simpl in Hc, Hi. apply andb_true_iff in Hc as [Hk Hc].
    apply andb_true_iff in Hi as [Hv Hi].
    inversion Hnz as [|? ? Hv0 Hnz']; subst. cbn [snd] in Hv0.
    destruct v as [z| |]; try discriminate.
    assert (Hfresh : ~ In k (map fst acc)).
    { rewrite List.map_app in Hnd. simpl in Hnd.
      apply NoDup_remove_2 in Hnd. intro Hin. apply Hnd, in_or_app. now left. }
    rewrite secondPass_canonical by exact Hk. cbn [elements].
    destruct (Map.has acc k) eqn:Hh; [now apply has_In in Hh|].
    rewrite Hg. unfold setAt. rewrite (proj2 (strict_neq_zero (Int z)) Hv0).
    cbn [numRows numCols elements]. rewrite set_fresh by exact Hfresh.
    rewrite IH; auto; rewrite <- List.app_assoc; [reflexivity | exact Hnd].
Qed.

(** X9. The empty matrix is neutral: adding it on either side, or subtracting
    it, returns the other operand itself, entry for entry and in the same
    order. *)
Theorem add_zero_matrix (a : Matrix) (rows cols : Z) :
  wellFormed a = true -> integral a = true -> noZeroEntry (elements a) ->
  numRows a = Int rows -> numCols a = Int cols ->
  add a (new (Int rows) (Int cols)) = Ok a
  /\ add (new (Int rows) (Int cols)) a = Ok a
  /\ subtract a (new (Int rows) (Int cols)) = Ok a.
Proof.
  intros Hwf Hi Hnz Hr Hc. destruct a as [ar ac es]. simpl in Hr, Hc. subst.
  destruct (wellFormed_store _ Hwf) as [Hd Hk]. cbn [elements] in *.
  apply distinctKeys_NoDup in Hd.
  assert (Hrefl : forall z, strict_neq (Int z) (Int z) = false)
    by (intro z; unfold strict_neq; simpl; now rewrite Z.eqb_refl).
  assert (Hplus : forall z, plus (Int z) (Int 0) = Int z)
    by (intro z; simpl; now rewrite Z.add_0_r).
  assert (Hminus : forall z, minus (Int z) (Int 0) = Int z)
    by (intro z; simpl; now rewrite Z.sub_0_r).
  repeat split.
  - unfold add. cbn [numRows numCols new]. rewrite !Hrefl. cbn [orb].
    change (Map.forEach (elements (mkMatrix (Int rows) (Int cols) Map.empty)) _ ?x)
      with x.
    f_equal.
    exact (firstPass_copies (new (Int rows) (Int cols)) plus _ _ es []
             (fun k => eq_refl) Hplus Hk Hi Hnz Hd).
  - unfold add. cbn [numRows numCols new]. rewrite !Hrefl. cbn [orb].
    f_equal.
    exact (secondPass_copies (fun v => v) _ _ es []
             (fun z => eq_refl) Hk Hi Hnz Hd).
  - unfold subtract. cbn [numRows numCols new]. rewrite !Hrefl. cbn [orb].
    change (Map.forEach (elements (mkMatrix (Int rows) (Int cols) Map.empty)) _ ?x)
      with x.
    f_equal.
    exact (firstPass_copies (new (Int rows) (Int cols)) minus _ _ es []
             (fun k => eq_refl) Hminus Hk Hi Hnz Hd).
Qed.

Lemma add_zero_matrix_witness :
  wellFormed scenarioA = true /\ integral scenarioA = true
  /\ noZeroEntry (elements scenarioA)
  /\ add scenarioA (new (Int 2) (Int 2)) = Ok scenarioA.
Proof.
  assert (Hnz : noZeroEntry (elements scenarioA))
    by (repeat constructor; discriminate).
  split; [reflexivity|]. split; [reflexivity|]. split; [exact Hnz|].
  exact (proj1 (add_zero_matrix scenarioA 2 2 eq_refl eq_refl Hnz eq_refl eq_refl)).
Defined.

(** X10. Subtracting a matrix from itself returns its negation, not the empty
    matrix: every difference is 0, so the first pass writes nothing and
    the second pass stores each negated entry. *)
Theorem subtract_self (a : Matrix) (rows cols : Z) :
  wellFormed a = true -> integral a = true ->
  numRows a = Int rows -> numCols a = Int cols ->
  exists m,
    subtract a a = Ok m
    /\ forall r c, getElement m (Int r) (Int c) = Int (- entryZ a r c).
Proof.
  intros Hwf Hi Hr Hc. unfold subtract. rewrite Hr, Hc.
  unfold strict_neq. simpl strict_eq. rewrite !Z.eqb_refl. cbn [negb orb].
  eexists. split; [reflexivity|]. intros r c.
  pose proof (twoPasses_value minus negate Z.sub Z.opp
                (fun x y => eq_refl) (fun y => eq_refl) eq_refl
                (fun y => eq_refl) a a (Int rows) (Int cols) r c
                Hwf Hwf Hi Hi) as H.
  cbv zeta in H. rewrite Z.sub_diag in H. exact H.
Qed.

Lemma subtract_self_witness :
  wellFormed scenarioA = true /\ integral scenarioA = true
  /\ exists m,
       subtract scenarioA scenarioA = Ok m
       /\ forall r c, getElement m (Int r) (Int c) = Int (- entryZ scenarioA r c).
Proof.
  split; [reflexivity|]. split; [reflexivity|].
  exact (subtract_self scenarioA 2 2 eq_refl eq_refl eq_refl eq_refl).
Defined.

(** X11. The product with an empty matrix, on either side, is the empty matrix
    of the product's dimensions. *)
Theorem multiply_empty (a b : Matrix) (rows cols : value) :
  (strict_neq (numCols a) rows = false ->
     multiply a (new rows cols) = Ok (new (numRows a) cols))
  /\ (strict_neq cols (numRows b) = false ->
     multiply (new rows cols) b = Ok (new rows (numCols b))).
Proof.
  split; intro H; unfold multiply; cbn [numRows numCols new]; rewrite H.
  - f_equal.
    apply (forEach_invariant (fun st => st = mkMatrix (numRows a) cols Map.empty));
      [reflexivity|].
    intros v k st ->. now destruct (rowcol k).
  - reflexivity.
Qed.

(** ** The parser *)

Lemma fromFile_throws_witness :
  fromFile (join LF ["rows=2"; "cols=2"; "(1,2)"]) = Throw formatError
  /\ (formatError = formatError
      \/ (formatError = TypeError
          /\ nth_error (linesOf (join LF ["rows=2"; "cols=2"; "(1,2)"])) 1 = None)).
Proof.
  split; [reflexivity|].
  exact (fromFile_throws (join LF ["rows=2"; "cols=2"; "(1,2)"]) formatError
           eq_refl).
Defined.

Lemma fromFile_wellFormed_witness :
  fromFile (join LF ["rows=2"; "cols=3"; "(0, 1, 5)"; ""; "(1, 2, x)"])
  = Ok (mkMatrix (Int 2) (Int 3) [("0,1", Int 5); ("1,2", NaN)])
  /\ wellFormed (mkMatrix (Int 2) (Int 3) [("0,1", Int 5); ("1,2", NaN)]) = true.
Proof.
  split; [reflexivity|].
  exact (fromFile_wellFormed
           (join LF ["rows=2"; "cols=3"; "(0, 1, 5)"; ""; "(1, 2, x)"]) _
           eq_refl eq_refl).
Defined.

Lemma extractValues_parenthesized (pre inner post : string) :
  occurs "(" pre = false -> occurs ")" pre = false ->
  occurs ")" inner = false ->
  extractValues (pre ++ "(" ++ inner ++ ")" ++ post)
  = match split "," inner with
    | [v0; v1; v2] =>
        Ok (parseInt (trim v0), parseInt (trim v1), parseInt (trim v2))
    | _ => Throw formatError
    end.
Proof.
  intros Hpre1 Hpre2 Hinner.
  set (line := pre ++ "(" ++ inner ++ ")" ++ post).
  assert (Hstart : indexOf line "(" = Z.of_nat (String.length pre)).
  { unfold indexOf, line. simpl append.
    rewrite indexOf_from_app by exact Hpre1. lia. }
  assert (Hend : indexOf line ")" =
                 Z.of_nat (String.length (pre ++ "(") + String.length inner)).
  { unfold indexOf, line.
    replace (pre ++ "(" ++ inner ++ ")" ++ post)
      with ((pre ++ "(" ++ inner) ++ String ")" post)
      by (rewrite !append_assoc; reflexivity).
    rewrite indexOf_from_app
      by (rewrite !occurs_app, Hpre2, Hinner; reflexivity).
    rewrite !length_app. simpl. lia. }
  unfold extractValues. rewrite Hstart, Hend.
  destruct (Z.eqb_spec (Z.of_nat (String.length pre)) (-1)); [lia|].
  destruct (Z.eqb_spec
              (Z.of_nat (String.length (pre ++ "(") + String.length inner)) (-1));
    [lia|]. simpl orb. cbv iota.
  replace (Z.of_nat (String.length pre) + 1)
    with (Z.of_nat (String.length (pre ++ "(")))
    by (rewrite length_app; simpl; lia).
  replace line with ((pre ++ "(") ++ inner ++ (")" ++ post))
    by (unfold line; rewrite !append_assoc; reflexivity).
  rewrite slice_middle.
  now destruct (split "," inner) as [|v0 [|v1 [|v2 [|v3 t]]]].
Qed.

(** X15. [extractValues] reads the three fields between the first [(] and the
    first [)]: each is trimmed and handed to [parseInt], and whatever
    stands before the [(] or after the [)] is ignored. *)
Theorem extractValues_fields (pre f0 f1 f2 post : string) :
  occurs "(" pre = false -> occurs ")" pre = false ->
  occurs ")" (f0 ++ f1 ++ f2) = false ->
  occurs "," (f0 ++ f1 ++ f2) = false ->
  extractValues (pre ++ "(" ++ f0 ++ "," ++ f1 ++ "," ++ f2 ++ ")" ++ post)
  = Ok (parseInt (trim f0), parseInt (trim f1), parseInt (trim f2)).
Proof.
  intros Hpre1 Hpre2 Hparen Hcomma.
  rewrite !occurs_app in Hparen, Hcomma.
  apply orb_false_iff in Hparen as [Hp0 Hparen].
  apply orb_false_iff in Hparen as [Hp1 Hp2].
  apply orb_false_iff in Hcomma as [Hc0 Hcomma].
  apply orb_false_iff in Hcomma as [Hc1 Hc2].
  replace (pre ++ "(" ++ f0 ++ "," ++ f1 ++ "," ++ f2 ++ ")" ++ post)
    with (pre ++ "(" ++ (f0 ++ "," ++ f1 ++ "," ++ f2) ++ ")" ++ post)
    by (f_equal; f_equal; repeat (rewrite append_assoc; cbn [append]);
        reflexivity).
  rewrite extractValues_parenthesized; auto.
  - change (f0 ++ "," ++ f1 ++ "," ++ f2)
      with (f0 ++ String "," (f1 ++ String "," f2)).
    now rewrite !split_app, split_absent by assumption.
  - rewrite !occurs_app, Hp0, Hp1, Hp2. reflexivity.
Qed.

Lemma extractValues_fields_witness :
  extractValues ("entry (" ++ " 3 " ++ "," ++ "4" ++ "," ++ " -7x" ++ ")" ++ " ; ()")
  = Ok (parseInt (trim " 3 "), parseInt (trim "4"), parseInt (trim " -7x")).
Proof.
  apply (extractValues_fields "entry " " 3 " "4" " -7x" " ; ()"); reflexivity.
Defined.

Lemma tupleLine_line (rs cs vs : string) :
  plain rs = true -> plain cs = true -> plain vs = true ->
  occurs LF (tupleLine rs cs vs) = false
  /\ trimEnd (tupleLine rs cs vs) = tupleLine rs cs vs
  /\ tupleLine rs cs vs <> "".
Proof.
  intros Hr Hc Hv. repeat split.
  - apply tupleLine_occurs; try discriminate; auto.
  - rewrite tupleLine_inner.
    exact (trimEnd_app ("(" ++ (rs ++ ", " ++ cs ++ ", " ++ vs)) "" ")" eq_refl).
  - discriminate.
Qed.

Lemma parseElements_tupleLines (l : list (Z * Z * Z)) (m0 : Matrix) :
  forallb (fun e => let '(r, c, v) := e in
                    plainNumber (Int r) && plainNumber (Int c)
                    && plainNumber (Int v)) l = true ->
  parseElements
    (map (fun e => let '(r, c, v) := e in
                   tupleLine (toString (Int r)) (toString (Int c))
                             (toString (Int v))) l) m0
  = Ok (fold_left (fun m e => let '(r, c, v) := e in
                              setElement m (Int r) (Int c) (Int v)) l m0).
Proof.
  revert m0. induction l as [|[[r c] v] l IH]; intros m0 H; [reflexivity|].
  cbn [forallb] in H. apply andb_true_iff in H as [H Hl].
  apply andb_true_iff in H as [H Hv]. apply andb_true_iff in H as [Hr Hc].
  cbn [map parseElements fold_left]. rewrite trim_tupleLine.
  destruct (String.eqb_spec
              (tupleLine (toString (Int r)) (toString (Int c)) (toString (Int v))) "")
    as [E|_]; [discriminate|].
  rewrite extractValues_tupleLine by now apply plain_toString.
  rewrite !parseInt_toString by assumption. now apply IH.
Qed.

Lemma fromFile_matrixText (rows cols : Z) (l : list (Z * Z * Z)) :
  plainTriples rows cols l = true ->
  fromFile (matrixText rows cols l) = Ok (build rows cols l).
Proof.
  unfold plainTriples. intro H. apply andb_true_iff in H as [H Hl].
  apply andb_true_iff in H as [Hrows Hcols].
  set (line := fun e : Z * Z * Z =>
                 let '(r, c, v) := e in
                 tupleLine (toString (Int r)) (toString (Int c)) (toString (Int v))).
  set (lines := ("rows=" ++ toString (Int rows)) :: ("cols=" ++ toString (Int cols))
                :: map line l).
  assert (Hlines : Forall (fun s => occurs LF s = false
                                    /\ trimEnd s = s /\ s <> "") lines).
  { unfold lines. repeat constructor;
      try (apply plain_occurs; [reflexivity | apply header_plain; auto]);
      try (apply plain_trimEnd, header_plain; auto);
      try discriminate.
    apply Forall_map, Forall_forall. intros [[r c] v] Hin.
    rewrite forallb_forall in Hl. specialize (Hl _ Hin). cbn in Hl.
    apply andb_true_iff in Hl as [Hl Hv]. apply andb_true_iff in Hl as [Hr Hc].
    apply tupleLine_line; now apply plain_toString. }
  assert (Htrim : trim (join LF lines) = join LF lines).
  { unfold trim.
    assert (Hs : trimStart (join LF lines) = join LF lines) by reflexivity.
    rewrite Hs. apply trimEnd_join; [discriminate|].
    eapply Forall_impl; [|exact Hlines]. now intros s (_ & H1 & H2). }
  unfold fromFile, matrixText. fold line. fold lines.
  rewrite Htrim, split_join;
    [|discriminate | eapply Forall_impl; [|exact Hlines]; now intros s (H & _)].
  unfold lines. cbn [nth_error skipn].
  rewrite !extractNumber_header by auto. cbn [bind].
  unfold line, build. now apply parseElements_tupleLines.
Qed.

(** X16. Parsing a file is calling [setElement] line by line: on a text with
    the two header lines and any element lines of safe integers -
    repeated positions and zero values included - [fromFile] returns the
    matrix that the constructor and the [setElement] calls build in file
    order. *)
Theorem fromFile_builds (rows cols : Z) (l : list (Z * Z * Z)) :
  safeTriples rows cols l = true ->
  fromFile (matrixText rows cols l) = Ok (build rows cols l).
Proof. intro H. now apply fromFile_matrixText, safeTriples_plain. Qed.

Lemma fromFile_builds_witness :
  safeTriples 2 2 [(0, 0, 5); (1, 1, 0); (0, 0, -3); (7, 9, 4)] = true
  /\ fromFile (matrixText 2 2 [(0, 0, 5); (1, 1, 0); (0, 0, -3); (7, 9, 4)])
     = Ok (build 2 2 [(0, 0, 5); (1, 1, 0); (0, 0, -3); (7, 9, 4)]).
Proof.
  split; [reflexivity|]. now apply fromFile_builds.
Defined.

(** ** The main program *)

(** X19. Run with fewer than three arguments after the script name, or with an
    operation other than [add], [subtract] and [multiply], the program
    prints a message and exits with status 1, whatever the file system
    holds: it reads and writes nothing. *)
Theorem main_exits_without_files (argv : list string) :
  (List.length argv < 5)%nat
  \/ (nth 2 argv "" <> "add" /\ nth 2 argv "" <> "subtract"
      /\ nth 2 argv "" <> "multiply") ->
  exists printed, forall fs, main argv fs = Exit 1 printed.
Proof.
  intro H. unfold main.
  destruct (Nat.ltb_spec (List.length argv) 5) as [Hlt|Hge].
  - now exists usage.
  - destruct H as [H|(Ha & Hs & Hm)]; [lia|].
    exists invalidOperation. intro fs.
    apply String.eqb_neq in Ha, Hs, Hm. now rewrite Ha, Hs, Hm.
Qed.

Lemma main_exits_without_files_witness :
  (nth 2 ["node"; "sparse_matrix"; "transpose"; "a.txt"; "b.txt"] "" <> "add"
   /\ nth 2 ["node"; "sparse_matrix"; "transpose"; "a.txt"; "b.txt"] "" <> "subtract"
   /\ nth 2 ["node"; "sparse_matrix"; "transpose"; "a.txt"; "b.txt"] "" <> "multiply")
  /\ exists printed, forall fs,
       main ["node"; "sparse_matrix"; "transpose"; "a.txt"; "b.txt"] fs
       = Exit 1 printed.
Proof.
  assert (H : nth 2 ["node"; "sparse_matrix"; "transpose"; "a.txt"; "b.txt"] "" <> "add"
              /\ nth 2 ["node"; "sparse_matrix"; "transpose"; "a.txt"; "b.txt"] "" <> "subtract"
              /\ nth 2 ["node"; "sparse_matrix"; "transpose"; "a.txt"; "b.txt"] "" <> "multiply")
    by (repeat split; discriminate).
  split; [exact H|].
  exact (main_exits_without_files _ (or_intror H)).
Defined.

Lemma main_operation (name : string)
    (op : Matrix -> Matrix -> result Matrix)
    (node script path1 path2 : string) (rest : list string) (fs : fileSystem) :
  In (name, op) [("add", add); ("subtract", subtract); ("multiply", multiply)] ->
  main (node :: script :: name :: path1 :: path2 :: rest) fs
  = match (a <- fromPath fs path1 ;; b <- fromPath fs path2 ;; op a b) with
    | Throw e => Uncaught e
    | Ok result => writeResult fs name result
    end.
Proof.
  intros [H|[H|[H|[]]]]; injection H as <- <-; reflexivity.
Qed.

(** X20. Run on two files that hold matrix texts of safe integers, small
    enough for every sum and every product of the operation to be safe,
    the program parses both, applies the operation named on the command
    line and writes the serialized result to
    [matrix_<operation>_result.txt]; an error of the operation or of the
    write ends the run uncaught, with no report. *)
Theorem main_on_files (name : string)
    (op : Matrix -> Matrix -> result Matrix)
    (node script path1 path2 : string) (rest : list string) (fs : fileSystem)
    (rows1 cols1 rows2 cols2 : Z) (l1 l2 : list (Z * Z * Z)) :
  In (name, op) [("add", add); ("subtract", subtract); ("multiply", multiply)] ->
  safeTriples rows1 cols1 l1 = true -> safeTriples rows2 cols2 l2 = true ->
  magnitudeOf l1 + magnitudeOf l2 <= maxSafeInteger ->
  magnitudeOf l1 * magnitudeOf l2 <= maxSafeInteger ->
  readFileSync fs path1 = Ok (matrixText rows1 cols1 l1) ->
  readFileSync fs path2 = Ok (matrixText rows2 cols2 l2) ->
  let path := "matrix_" ++ name ++ "_result.txt" in
  main (node :: script :: name :: path1 :: path2 :: rest) fs
  = match op (build rows1 cols1 l1) (build rows2 cols2 l2) with
    | Throw e => Uncaught e
    | Ok result =>
        match writeFileSync fs path (serialize result) with
        | Throw e => Uncaught e
        | Ok _ => Written path (serialize result) ("Result written to " ++ path)
        end
    end.
Proof.
  intros Hop H1 H2 _ _ Hr1 Hr2 path.
  apply safeTriples_plain in H1, H2.
  rewrite (main_operation name op) by exact Hop.
  unfold fromPath. rewrite Hr1, Hr2. cbn [bind].
  rewrite !fromFile_matrixText by assumption. cbn [bind].
  reflexivity.
Qed.

Lemma main_on_files_witness :
  safeTriples 2 2 [(0, 0, 5); (1, 1, 3)] = true
  /\ safeTriples 2 2 [(0, 0, 2); (0, 1, 4)] = true
  /\ magnitudeOf [(0, 0, 5); (1, 1, 3)] * magnitudeOf [(0, 0, 2); (0, 1, 4)]
     <= maxSafeInteger
  /\ main ["node"; "sparse_matrix"; "multiply"; "a.txt"; "b.txt"]
       (twoFiles "a.txt" (matrixText 2 2 [(0, 0, 5); (1, 1, 3)])
                 "b.txt" (matrixText 2 2 [(0, 0, 2); (0, 1, 4)]))
     = Written "matrix_multiply_result.txt"
         (join LF ["rows=2"; "cols=2"; "(0, 0, 10)"; "(0, 1, 20)"])
         "Result written to matrix_multiply_result.txt".
Proof.
  assert (Hsum : magnitudeOf [(0, 0, 5); (1, 1, 3)]
                 + magnitudeOf [(0, 0, 2); (0, 1, 4)] <= maxSafeInteger)
    by (vm_compute; discriminate).
  assert (Hprod : magnitudeOf [(0, 0, 5); (1, 1, 3)]
                  * magnitudeOf [(0, 0, 2); (0, 1, 4)] <= maxSafeInteger)
    by (vm_compute; discriminate).
  split; [reflexivity|]. split; [reflexivity|]. split; [exact Hprod|].
  exact (main_on_files "multiply" multiply "node" "sparse_matrix"
           "a.txt" "b.txt" []
           (twoFiles "a.txt" (matrixText 2 2 [(0, 0, 5); (1, 1, 3)])
                     "b.txt" (matrixText 2 2 [(0, 0, 2); (0, 1, 4)]))
           2 2 2 2 [(0, 0, 5); (1, 1, 3)] [(0, 0, 2); (0, 1, 4)]
           (or_intror (or_intror (or_introl eq_refl)))
           eq_refl eq_refl Hsum Hprod eq_refl eq_refl).
Defined.

(** X21. A first file that cannot be read or parsed ends the run with its
    exception, whatever the second path holds; nothing is written. *)
Theorem main_first_file_fails (name : string)
    (op : Matrix -> Matrix -> result Matrix)
    (node script path1 path2 : string) (rest : list string) (fs : fileSystem)
    (e : exn) :
  In (name, op) [("add", add); ("subtract", subtract); ("multiply", multiply)] ->
  fromPath fs path1 = Throw e ->
  main (node :: script :: name :: path1 :: path2 :: rest) fs = Uncaught e.
Proof.
  intros Hop H. rewrite (main_operation name op) by exact Hop.
  now rewrite H.
Qed.

Lemma main_first_file_fails_witness :
  fromPath (twoFiles "a.txt" "ROWS=2" "b.txt" "") "a.txt" = Throw formatError
  /\ main ["node"; "sparse_matrix"; "add"; "a.txt"; "b.txt"]
       (twoFiles "a.txt" "ROWS=2" "b.txt" "")
     = Uncaught formatError.
Proof.
  split; [reflexivity|].
  exact (main_first_file_fails "add" add "node" "sparse_matrix" "a.txt" "b.txt" []
           (twoFiles "a.txt" "ROWS=2" "b.txt" "") formatError
           (or_introl eq_refl) eq_refl).
Defined.

(** ** The running totals of the product *)

Lemma fold_left_pointwise {A B : Type} (f g : A -> B -> A) (l : list B) (a0 : A) :
  (forall st x, f st x = g st x) -> fold_left f l a0 = fold_left g l a0.
Proof.
  intro H. revert a0. induction l as [|x l IH]; intro a0; simpl; [reflexivity|].
  now rewrite H, IH.
Qed.

Lemma multiply_unfold (a b : Matrix) :
  multiply a b
  = if strict_neq (numCols a) (numRows b)
    then Throw (dimensionError "multiplication")
    else Ok (Map.forEach (elements a)
               (fun valueA keyA result =>
                  Map.forEach (elements b)
                    (accumulate (fst (rowcol keyA)) (snd (rowcol keyA)) valueA)
                    result)
               (new (numRows a) (numCols b))).
Proof.
  unfold multiply. destruct (strict_neq _ _); [reflexivity|]. f_equal.
  unfold Map.forEach at 1 3. apply fold_left_pointwise.
  intros st [ka va]. cbn [fst snd]. now destruct (rowcol ka).
Qed.

Lemma valueAt_setAt (m : Matrix) (k0 k : string) (v : value) :
  valueAt (setAt m k0 v) k
  = if String.eqb k0 k && strict_neq v (Int 0) then JS.or v (Int 0)
    else valueAt m k.
Proof.
  unfold valueAt, setAt. destruct (strict_neq v (Int 0)); cbn [elements].
  - rewrite get_set. now destruct (String.eqb k0 k).
  - now rewrite andb_false_r.
Qed.

Lemma accumulated_zero (s : Z) : accumulated s 0 = s.
Proof.
  unfold accumulated. rewrite Z.add_0_r. now destruct (Z.eqb_spec s 0).
Qed.

(** One run of the inner callback, seen from the key [k]. *)
Lemma accumulate_total (k ka : string) (va vb : Z) (kb : string)
    (result : Matrix) (s : Z) :
  valueAt result k = Int s ->
  valueAt (accumulate (fst (rowcol ka)) (snd (rowcol ka)) (Int va)
             (Int vb) kb result) k
  = Int (accumulated s (contribution k (ka, Int va) (kb, Int vb))).
Proof.
  intro Hs. unfold accumulate, contribution. cbn [fst snd intOf].
  set (rowA := fst (rowcol ka)). set (colA := snd (rowcol ka)).
  destruct (rowcol kb) as [rowB colB]. cbn [fst snd].
  destruct (strict_eq colA rowB); cbn [andb];
    [|now rewrite accumulated_zero].
  change (setElement result rowA colB
            (plus (getElement result rowA colB) (times (Int va) (Int vb))))
    with (setAt result (key rowA colB)
            (plus (valueAt result (key rowA colB)) (Int (va * vb)))).
  rewrite valueAt_setAt.
  destruct (String.eqb_spec (key rowA colB) k) as [E|Hne]; cbn [andb].
  - rewrite E, Hs. cbn [plus]. unfold accumulated.
    destruct (Z.eqb_spec (s + va * vb) 0) as [E0|E0].
    + rewrite E0. reflexivity.
    + rewrite (proj2 (strict_neq_Int (s + va * vb) 0) E0). apply or_zero_Int.
  - now rewrite accumulated_zero.
Qed.

Lemma inner_total (k ka : string) (va : Z) (sb : Map.t) (result : Matrix)
    (s : Z) :
  forallb (fun kv => match snd kv with Int _ => true | _ => false end) sb
  = true ->
  valueAt result k = Int s ->
  valueAt (Map.forEach sb
             (accumulate (fst (rowcol ka)) (snd (rowcol ka)) (Int va))
             result) k
  = Int (fold_left accumulated (map (contribution k (ka, Int va)) sb) s).
Proof.
  unfold Map.forEach. revert result s.
  induction sb as [|[kb vb] sb IH]; intros result s Hi Hs; [exact Hs|].
  cbn [forallb snd] in Hi. apply andb_true_iff in Hi as [Hvb Hi].
  destruct vb as [vb| |]; try discriminate.
  cbn [fold_left map fst snd]. apply IH; [exact Hi|].
  now apply accumulate_total.
Qed.

Lemma outer_total (k : string) (sa sb : Map.t) (result : Matrix) (s : Z) :
  forallb (fun kv => match snd kv with Int _ => true | _ => false end) sa
  = true ->
  forallb (fun kv => match snd kv with Int _ => true | _ => false end) sb
  = true ->
  valueAt result k = Int s ->
  valueAt (Map.forEach sa
             (fun valueA keyA result =>
                Map.forEach sb
                  (accumulate (fst (rowcol keyA)) (snd (rowcol keyA)) valueA)
                  result)
             result) k
  = Int (fold_left accumulated
           (flat_map (fun ea => map (contribution k ea) sb) sa) s).
Proof.
  intros Ha Hb. unfold Map.forEach at 1. revert result s.
  induction sa as [|[ka va] sa IH]; intros result s Hs; [exact Hs|].
  cbn [forallb snd] in Ha. apply andb_true_iff in Ha as [Hva Ha].
  destruct va as [va| |]; try discriminate.
  cbn [fold_left flat_map fst snd]. rewrite fold_left_app.
  apply IH; [exact Ha|]. now apply inner_total.
Qed.

Lemma multiply_runningTotal (a b m : Matrix) (row col : value) :
  integral a = true -> integral b = true -> multiply a b = Ok m ->
  getElement m row col = Int (runningTotal (productsAt (key row col) a b)).
Proof.
  intros Ha Hb Hm. rewrite multiply_unfold in Hm.
  destruct (strict_neq _ _); [discriminate|]. injection Hm as <-.
  change (getElement ?x row col) with (valueAt x (key row col)).
  now apply outer_total.
Qed.

(** C4. What [multiply] leaves at a position is not the sum of the
    products but their running total, kept through [setElement]: each
    product is added to the value read back from the result, and a sum of
    exactly 0 is not written, so that the value stored before stays
    (first part, for well-formed matrices of safe integers whose
    magnitudes bound every total by a safe integer, where the engine
    computes without rounding; second part, for one run of the inner
    callback).  For A = 1x2 with A(0,0)=1,
    A(0,1)=1 and B = 2x1 with B(0,0)=5, B(1,0)=-5 the products at (0,0)
    are 5 and -5: the second total is 0, and [A.multiply(B).getElement(0,
    0)] is the stale partial sum 5, whereas the dot product is 0. *)
Theorem multiply_stale_partial_sum :
  (forall (a b m : Matrix) (r c : Z),
      wellFormed a = true -> wellFormed b = true ->
      integral a = true -> integral b = true ->
      safeNumbers a = true -> safeNumbers b = true ->
      magnitude a * magnitude b <= maxSafeInteger ->
      safeInteger r = true -> safeInteger c = true ->
      multiply a b = Ok m ->
      getElement m (Int r) (Int c)
      = Int (runningTotal (productsAt (key (Int r) (Int c)) a b)))
  /\ (forall (result : Matrix) (rowA colA : value) (va vb s : Z)
             (keyB : string),
        strict_eq colA (fst (rowcol keyB)) = true ->
        getElement result rowA (snd (rowcol keyB)) = Int s ->
        s + va * vb = 0 ->
        accumulate rowA colA (Int va) (Int vb) keyB result = result)
  /\ let a := build 1 2 [(0, 0, 1); (0, 1, 1)] in
     let b := build 2 1 [(0, 0, 5); (1, 0, -5)] in
     numCols a = numRows b
     /\ wellFormed a = true /\ wellFormed b = true
     /\ safeNumbers a = true /\ safeNumbers b = true
     /\ magnitude a * magnitude b = 20
     /\ productsAt (key (Int 0) (Int 0)) a b = [5; 0; 0; -5]
     /\ runningTotal [5; 0; 0; -5] = 5
     /\ dotProduct a b 0 0 2 = 0
     /\ exists m,
          multiply a b = Ok m /\ getElement m (Int 0) (Int 0) = Int 5.
Proof.
  split; [|split].
  - intros a b m r c _ _ Ha Hb _ _ _ _ _ Hm.
    now apply multiply_runningTotal.
  - intros result rowA colA va vb s keyB Heq Hget Hsum. unfold accumulate.
    destruct (rowcol keyB) as [rowB colB]. cbn [fst snd] in Heq, Hget.
    rewrite Heq, Hget. cbn [times plus]. rewrite Hsum. reflexivity.
  - cbv zeta. repeat (split; [reflexivity|]). eexists. split; reflexivity.
Qed.

(** ** The product of matrices with positive entries *)

Lemma accumulate_step (k : string) (rowA colA : value) (va vb : Z)
    (kb : string) (result : Matrix) (s : Z) :
  0 < va -> 0 < vb -> valueAt result k = Int s -> 0 <= s ->
  let t := if strict_eq colA (fst (rowcol kb))
              && String.eqb (key rowA (snd (rowcol kb))) k
           then va * vb else 0 in
  valueAt (accumulate rowA colA (Int va) (Int vb) kb result) k = Int (s + t)
  /\ 0 <= s + t.
Proof.
  intros Hva Hvb Hs Hs0 t. subst t. unfold accumulate.
  destruct (rowcol kb) as [rowB colB]. cbn [fst snd].
  destruct (strict_eq colA rowB); cbn [andb];
    [|rewrite Z.add_0_r; now split].
  change (setElement result rowA colB
            (plus (getElement result rowA colB) (times (Int va) (Int vb))))
    with (setAt result (key rowA colB)
            (plus (valueAt result (key rowA colB)) (Int (va * vb)))).
  rewrite valueAt_setAt.
  destruct (String.eqb_spec (key rowA colB) k) as [->|Hne]; cbn [andb].
  - rewrite Hs. cbn [plus].
    assert (Hpos : 0 < s + va * vb) by nia.
    rewrite (proj2 (strict_neq_Int (s + va * vb) 0)) by lia.
    rewrite or_zero_Int. split; [reflexivity | lia].
  - rewrite Z.add_0_r. now split.
Qed.

Lemma inner_loop (k : string) (rowA colA : value) (va : Z)
    (sb : Map.t) (result : Matrix) (s : Z) :
  0 < va ->
  forallb (fun kv => match snd kv with Int z => 0 <? z | _ => false end) sb = true ->
  valueAt result k = Int s -> 0 <= s ->
  let t := sumOver (fun eb =>
                      if strict_eq colA (fst (rowcol (fst eb)))
                         && String.eqb (key rowA (snd (rowcol (fst eb)))) k
                      then va * intOf (snd eb) else 0) sb in
  valueAt (Map.forEach sb (accumulate rowA colA (Int va)) result) k = Int (s + t)
  /\ 0 <= s + t.
Proof.
  intros Hva. unfold Map.forEach. revert result s.
  induction sb as [|[kb vb] sb IH]; intros result s Hpos Hs Hs0; cbn zeta.
  - cbn. rewrite Z.add_0_r. now split.
  - cbn [forallb] in Hpos. apply andb_true_iff in Hpos as [Hvb Hpos].
    cbn [snd] in Hvb. destruct vb as [vb| |]; try discriminate.
    apply Z.ltb_lt in Hvb. cbn [fold_left fst snd sumOver intOf].
    destruct (accumulate_step k rowA colA va vb kb result s Hva Hvb Hs Hs0)
      as [Hstep Hstep0].
    cbv zeta in Hstep, Hstep0.
    destruct (IH _ _ Hpos Hstep Hstep0) as [IH1 IH2]. cbv zeta in IH1, IH2.
    rewrite IH1. split; [f_equal; lia | lia].
Qed.

Lemma outer_loop (k : string) (sa sb : Map.t) (result : Matrix) (s : Z) :
  forallb (fun kv => match snd kv with Int z => 0 <? z | _ => false end) sa = true ->
  forallb (fun kv => match snd kv with Int z => 0 <? z | _ => false end) sb = true ->
  valueAt result k = Int s -> 0 <= s ->
  let t := sumOver (fun ea => sumOver (fun eb => contribution k ea eb) sb) sa in
  valueAt (Map.forEach sa
             (fun valueA keyA result =>
                Map.forEach sb
                  (accumulate (fst (rowcol keyA)) (snd (rowcol keyA)) valueA)
                  result)
             result) k = Int (s + t)
  /\ 0 <= s + t.
Proof.
  intros Hpa Hpb. unfold Map.forEach at 1. revert result s.
  induction sa as [|[ka va] sa IH]; intros result s Hs Hs0; cbn zeta.
  - cbn. rewrite Z.add_0_r. now split.
  - cbn [forallb] in Hpa. apply andb_true_iff in Hpa as [Hva Hpa].
    cbn [snd] in Hva. destruct va as [va| |]; try discriminate.
    apply Z.ltb_lt in Hva. cbn [fold_left fst snd sumOver].
    destruct (inner_loop k (fst (rowcol ka)) (snd (rowcol ka)) va sb result s
                Hva Hpb Hs Hs0) as [Hin Hin0].
    cbv zeta in Hin, Hin0.
    set (t1 := sumOver _ sb) in Hin, Hin0.
    change (sumOver (fun eb => contribution k (ka, Int va) eb) sb) with t1.
    destruct (IH Hpa _ _ Hin Hin0) as [IH1 IH2]. cbv zeta in IH1, IH2.
    rewrite IH1. split; [f_equal; lia | lia].
Qed.

Lemma sumOver_pointwise {A : Type} (f g : A -> Z) (l : list A) :
  (forall x, In x l -> f x = g x) -> sumOver f l = sumOver g l.
Proof.
  induction l as [|x l IH]; intro H; simpl; [reflexivity|].
  rewrite (H x) by now left. rewrite IH; [reflexivity|].
  intros y Hy. apply H. now right.
Qed.

Lemma sumOver_add {A : Type} (f g : A -> Z) (l : list A) :
  sumOver (fun x => f x + g x) l = sumOver f l + sumOver g l.
Proof. induction l as [|x l IH]; simpl; [reflexivity|]. rewrite IH. lia. Qed.

Lemma sumOver_scale {A : Type} (c : Z) (g : A -> Z) (l : list A) :
  c * sumOver g l = sumOver (fun y => c * g y) l.
Proof. induction l as [|x l IH]; simpl; [lia|]. rewrite <- IH. lia. Qed.

Lemma sumOver_product {A B : Type} (f : A -> Z) (g : B -> Z)
    (la : list A) (lb : list B) :
  sumOver f la * sumOver g lb
  = sumOver (fun x => sumOver (fun y => f x * g y) lb) la.
Proof.
  induction la as [|x la IH]; simpl; [reflexivity|].
  rewrite <- IH, <- sumOver_scale. lia.
Qed.

Lemma sumTo_pointwise (h h' : nat -> Z) (n : nat) :
  (forall j, (j < n)%nat -> h j = h' j) -> sumTo h n = sumTo h' n.
Proof.
  induction n as [|n IH]; intro H; simpl; [reflexivity|].
  rewrite IH, (H n) by auto with arith. reflexivity.
Qed.

Lemma sumTo_sumOver {A : Type} (F : nat -> A -> Z) (l : list A) (n : nat) :
  sumTo (fun j => sumOver (F j) l) n
  = sumOver (fun x => sumTo (fun j => F j x) n) l.
Proof.
  induction n as [|n IH]; simpl.
  - induction l as [|x l IHl]; simpl; [reflexivity | now rewrite <- IHl].
  - now rewrite IH, <- sumOver_add.
Qed.

Lemma sumTo_none (h : nat -> Z) (n : nat) :
  (forall j, (j < n)%nat -> h j = 0) -> sumTo h n = 0.
Proof.
  induction n as [|n IH]; intro H; simpl; [reflexivity|].
  rewrite IH, (H n) by auto with arith. reflexivity.
Qed.

Lemma sumTo_single (h : nat -> Z) (n j0 : nat) :
  (j0 < n)%nat -> (forall j, (j < n)%nat -> j <> j0 -> h j = 0) ->
  sumTo h n = h j0.
Proof.
  induction n as [|n IH]; intros Hlt H; [lia|]. simpl.
  destruct (Nat.eq_dec j0 n) as [->|Hne].
  - rewrite sumTo_none; [reflexivity|]. intros j Hj. apply H; lia.
  - rewrite IH, (H n) by (try lia; intros; apply H; lia). lia.
Qed.

Lemma dotProduct_sumTo (a b : Matrix) (r c : Z) (n : nat) :
  dotProduct a b r c n
  = sumTo (fun j => entryZ a r (Z.of_nat j) * entryZ b (Z.of_nat j) c) n.
Proof. induction n as [|n IH]; simpl; [reflexivity | now rewrite IH]. Qed.

Lemma sumOver_absent (store : Map.t) (k : string) :
  Map.has store k = false ->
  sumOver (fun e => if String.eqb (fst e) k then intOf (snd e) else 0) store = 0.
Proof.
  induction store as [|[k0 v0] rest IH]; simpl; intro H; [reflexivity|].
  destruct (String.eqb k0 k); [discriminate|]. now rewrite IH.
Qed.

Lemma valueAt_sum (m : Matrix) (k : string) :
  distinctKeys (elements m) = true -> positiveEntries m = true ->
  intOf (valueAt m k)
  = sumOver (fun e => if String.eqb (fst e) k then intOf (snd e) else 0)
            (elements m).
Proof.
  unfold valueAt, positiveEntries.
  induction (elements m) as [|[k0 v0] rest IH]; simpl; intros Hd Hp;
    [reflexivity|].
  apply andb_true_iff in Hd as [Hk0 Hd]. apply andb_true_iff in Hp as [Hv0 Hp].
  destruct v0 as [z| |]; try discriminate.
  destruct (String.eqb_spec k0 k) as [->|Hne].
  - apply negb_true_iff in Hk0.
    now rewrite sumOver_absent, or_zero_Int, Z.add_0_r by exact Hk0.
  - now rewrite IH.
Qed.

Lemma strict_eq_Int (z : Z) (v : value) :
  strict_eq (Int z) v = true -> v = Int z.
Proof.
  destruct v as [y| |]; simpl; try discriminate.
  intro H. apply Z.eqb_eq in H. now subst.
Qed.

Lemma canonicalKey_plain (k : string) :
  canonicalKey k = true ->
  plainNumber (fst (rowcol k)) = true /\ plainNumber (snd (rowcol k)) = true.
Proof.
  unfold canonicalKey. intro H. apply andb_true_iff in H as [H _].
  now apply andb_true_iff in H.
Qed.

Lemma plainNumber_index (n j : nat) :
  Z.of_nat n <= 1000000000000000000000 -> (j < n)%nat ->
  plainNumber (Int (Z.of_nat j)) = true.
Proof. intros Hn Hj. cbn [plainNumber]. apply Z.ltb_lt. lia. Qed.

(** Summed over the inner index, the products of the entries found at
    [(r, j)] and [(j, c)] are what a pair of stored entries contributes
    to the key of [(r, c)]. *)
Lemma contribution_sumTo (ea eb : string * value) (r c : Z) (n : nat) (j0 : Z) :
  canonicalKey (fst ea) = true -> canonicalKey (fst eb) = true ->
  snd (rowcol (fst ea)) = Int j0 -> 0 <= j0 < Z.of_nat n ->
  Z.of_nat n <= 1000000000000000000000 ->
  plainNumber (Int r) = true -> plainNumber (Int c) = true ->
  sumTo (fun j =>
           (if String.eqb (fst ea) (key (Int r) (Int (Z.of_nat j)))
            then intOf (snd ea) else 0)
           * (if String.eqb (fst eb) (key (Int (Z.of_nat j)) (Int c))
              then intOf (snd eb) else 0)) n
  = contribution (key (Int r) (Int c)) ea eb.
Proof.
  destruct ea as [ka va], eb as [kb vb]. cbn [fst snd].
  intros Hka Hkb Hcol Hj0 Hn Hr Hc.
  pose proof (canonicalKey_rowcol ka Hka) as Eka.
  pose proof (canonicalKey_rowcol kb Hkb) as Ekb.
  destruct (canonicalKey_plain ka Hka) as [HrowA HcolA].
  destruct (canonicalKey_plain kb Hkb) as [HrowB HcolB].
  rewrite Hcol in Eka, HcolA.
  assert (Hj0' : plainNumber (Int (Z.of_nat (Z.to_nat j0))) = true)
    by (apply (plainNumber_index n); lia).
  assert (Hidx : forall j, (j < n)%nat ->
                 ka = key (Int r) (Int (Z.of_nat j)) ->
                 Z.of_nat j = j0 /\ ka = key (Int r) (Int j0)).
  { intros j Hj E. rewrite <- Eka in E.
    pose proof (plainNumber_index n j Hn Hj) as Hpj.
    apply key_injective in E as [E1 E2]; auto.
    injection E2 as E2. split; [lia|]. now rewrite <- Eka, E1. }
  assert (Hfirst : forall j, (j < n)%nat -> Z.of_nat j <> j0 ->
                   (if String.eqb ka (key (Int r) (Int (Z.of_nat j)))
                    then intOf va else 0) = 0).
  { intros j Hj Hne.
    destruct (String.eqb_spec ka (key (Int r) (Int (Z.of_nat j))))
      as [E|_]; [|reflexivity].
    now destruct (Hidx j Hj E). }
  unfold contribution. cbn [fst snd]. rewrite Hcol.
  destruct (String.eqb_spec ka (key (Int r) (Int j0))) as [Ea|Na].
  - destruct (String.eqb_spec kb (key (Int j0) (Int c))) as [Eb|Nb].
    + rewrite (sumTo_single _ n (Z.to_nat j0)).
      * rewrite Z2Nat.id by lia. rewrite <- Ea, <- Eb, !String.eqb_refl.
        rewrite Ea, Eb, !rowcol_key by assumption. cbn [fst snd strict_eq].
        now rewrite Z.eqb_refl, String.eqb_refl.
      * lia.
      * intros j Hj Hne. rewrite Hfirst by lia. reflexivity.
    + rewrite sumTo_none.
      * destruct (strict_eq (Int j0) (fst (rowcol kb))) eqn:Es;
          [|reflexivity]. cbn [andb].
        destruct (String.eqb_spec
                    (key (fst (rowcol ka)) (snd (rowcol kb)))
                    (key (Int r) (Int c))) as [E|_]; [|reflexivity].
        apply strict_eq_Int in Es.
        apply key_injective in E as [_ E]; auto.
        elim Nb. now rewrite <- Ekb, Es, E.
      * intros j Hj.
        destruct (Z.eq_dec (Z.of_nat j) j0) as [E|Hne];
          [|rewrite Hfirst by assumption; reflexivity].
        rewrite E.
        destruct (String.eqb_spec kb (key (Int j0) (Int c)));
          [contradiction | lia].
  - rewrite sumTo_none.
    + destruct (strict_eq (Int j0) (fst (rowcol kb))); [|reflexivity].
      cbn [andb].
      destruct (String.eqb_spec
                  (key (fst (rowcol ka)) (snd (rowcol kb)))
                  (key (Int r) (Int c))) as [E|_]; [|reflexivity].
      apply key_injective in E as [E _]; auto.
      elim Na. now rewrite <- Eka, E.
    + intros j Hj.
      destruct (String.eqb_spec ka (key (Int r) (Int (Z.of_nat j))))
        as [E|_]; [|reflexivity].
      destruct (Hidx j Hj E) as [_ E']. contradiction.
Qed.

Lemma entryZ_valueAt (m : Matrix) (r c : Z) :
  entryZ m r c = intOf (valueAt m (key (Int r) (Int c))).
Proof. reflexivity. Qed.

(** X12. On well-formed matrices of safe integers whose entries are
    positive - so that no running total is 0 - [multiply] returns the
    matrix product at every position where that product is safe: the
    entry at [(r, c)] is the sum over [j < n] of [a(r, j) * b(j, c)],
    where all column indices of [a] lie below [n].  (The terms being
    positive, every product and every running total at the position is at
    most the sum, and the engine computes them without rounding.) *)
Theorem multiply_positive (a b m : Matrix) (r c : Z) (n : nat) :
  wellFormed a = true -> wellFormed b = true ->
  positiveEntries a = true -> positiveEntries b = true ->
  safeNumbers a = true -> safeNumbers b = true ->
  columnsBelow (Z.of_nat n) a = true ->
  Z.of_nat n <= 1000000000000000000000 ->
  safeInteger r = true -> safeInteger c = true ->
  safeInteger (dotProduct a b r c n) = true ->
  multiply a b = Ok m ->
  getElement m (Int r) (Int c) = Int (dotProduct a b r c n).
Proof.
  intros Ha Hb Hpa Hpb _ _ Hcols Hn Hr Hc _ Hm.
  apply safeInteger_plain in Hr, Hc.
  rewrite multiply_unfold in Hm.
  destruct (strict_neq _ _); [discriminate|]. injection Hm as <-.
  destruct (wellFormed_store a Ha) as [Hda Hka].
  destruct (wellFormed_store b Hb) as [Hdb Hkb].
  set (k := key (Int r) (Int c)).
  destruct (outer_loop k (elements a) (elements b)
              (new (numRows a) (numCols b)) 0 Hpa Hpb eq_refl (Z.le_refl 0))
    as [Hv _].
  cbv zeta in Hv.
  change (getElement ?x (Int r) (Int c)) with (valueAt x k).
  rewrite Hv, Z.add_0_l. f_equal.
  rewrite dotProduct_sumTo.
  rewrite (sumTo_pointwise _
             (fun j =>
                sumOver (fun ea =>
                  sumOver (fun eb =>
                    (if String.eqb (fst ea) (key (Int r) (Int (Z.of_nat j)))
                     then intOf (snd ea) else 0)
                    * (if String.eqb (fst eb) (key (Int (Z.of_nat j)) (Int c))
                       then intOf (snd eb) else 0))
                  (elements b)) (elements a))).
  2: { intros j Hj. rewrite !entryZ_valueAt, !valueAt_sum by assumption.
       apply sumOver_product. }
  rewrite sumTo_sumOver. apply sumOver_pointwise. intros ea Hea.
  rewrite sumTo_sumOver. apply sumOver_pointwise. intros eb Heb.
  symmetry.
  rewrite forallb_forall in Hka, Hkb. unfold columnsBelow in Hcols.
  rewrite forallb_forall in Hcols. specialize (Hcols ea Hea).
  destruct (snd (rowcol (fst ea))) as [j0| |] eqn:Ej0; try discriminate.
  apply andb_true_iff in Hcols as [H0 H1].
  apply Z.leb_le in H0. apply Z.ltb_lt in H1.
  apply contribution_sumTo with j0; auto.
Qed.

Lemma multiply_positive_witness :
  wellFormed scenarioA = true /\ wellFormed scenarioB = true
  /\ positiveEntries scenarioA = true /\ positiveEntries scenarioB = true
  /\ safeNumbers scenarioA = true /\ safeNumbers scenarioB = true
  /\ columnsBelow (Z.of_nat 2) scenarioA = true
  /\ safeInteger (dotProduct scenarioA scenarioB 0 1 2) = true
  /\ multiply scenarioA scenarioB
     = Ok (mkMatrix (Int 2) (Int 2) [("0,0", Int 10); ("0,1", Int 20)])
  /\ getElement (mkMatrix (Int 2) (Int 2) [("0,0", Int 10); ("0,1", Int 20)])
       (Int 0) (Int 1)
     = Int (dotProduct scenarioA scenarioB 0 1 2).
Proof.
  repeat (split; [reflexivity|]).
  apply (multiply_positive scenarioA scenarioB _ 0 1 2);
    try reflexivity. vm_compute. discriminate.
Defined.

(** ** Files with repeated positions, and files without *)

Lemma build_from_lookup (l : list (Z * Z * Z)) (m0 : Matrix) (r c : Z) :
  plainNumber (Int r) = true -> plainNumber (Int c) = true ->
  forallb (fun e => let '(r', c', v) := e in
                    plainNumber (Int r') && plainNumber (Int c')
                    && plainNumber (Int v)) l = true ->
  getElement
    (fold_left (fun m e => let '(r', c', v) := e in
                           setElement m (Int r') (Int c') (Int v)) l m0)
    (Int r) (Int c)
  = match find (fun e => let '(r', c', v) := e in
                         (r' =? r) && (c' =? c) && negb (v =? 0))
               (List.rev l) with
    | Some (_, _, v) => Int v
    | None => getElement m0 (Int r) (Int c)
    end.
Proof.
  intros Hr Hc. revert m0.
  induction l as [|[[r' c'] v] l IH]; intros m0 Hl; [reflexivity|].
  cbn [forallb] in Hl. apply andb_true_iff in Hl as [H Hl].
  apply andb_true_iff in H as [H _]. apply andb_true_iff in H as [Hr' Hc'].
  cbn [fold_left List.rev]. rewrite IH, find_last by exact Hl.
  destruct (find _ (List.rev l)) as [[[r1 c1] v1]|]; [reflexivity|].
  unfold getElement, setElement.
  destruct (Z.eqb_spec v 0) as [->|Hv].
  - rewrite andb_false_r. reflexivity.
  - rewrite (proj2 (strict_neq_Int v 0) Hv), andb_true_r. cbn [elements].
    rewrite get_set.
    destruct (Z.eqb_spec r' r) as [->|Hne1];
      [destruct (Z.eqb_spec c' c) as [->|Hne2]|]; cbn [andb].
    + now rewrite String.eqb_refl, or_zero_Int.
    + destruct (String.eqb_spec (key (Int r) (Int c')) (key (Int r) (Int c)))
        as [E|_]; [|reflexivity].
      apply key_injective in E as [_ E]; auto. congruence.
    + destruct (String.eqb_spec (key (Int r') (Int c')) (key (Int r) (Int c)))
        as [E|_]; [|reflexivity].
      apply key_injective in E as [E _]; auto. congruence.
Qed.

(** X17. When a file of safe integers names a position more than once,
    the last line with a non-zero value decides: a later line replaces the
    value of an earlier one, and a line with value 0 changes nothing.  A
    position no such line names reads as 0. *)
Theorem fromFile_last_line (rows cols : Z) (l : list (Z * Z * Z)) (r c : Z) :
  safeTriples rows cols l = true ->
  safeInteger r = true -> safeInteger c = true ->
  exists m,
    fromFile (matrixText rows cols l) = Ok m
    /\ getElement m (Int r) (Int c) = Int (lastNonZero l r c).
Proof.
  intros H Hr Hc. apply safeTriples_plain in H.
  apply safeInteger_plain in Hr, Hc. exists (build rows cols l).
  split; [now apply fromFile_matrixText|].
  unfold plainTriples in H. apply andb_true_iff in H as [_ Hl].
  unfold build, lastNonZero. rewrite build_from_lookup by assumption.
  now destruct (find _ (List.rev l)) as [[[r1 c1] v1]|].
Qed.

Lemma fromFile_last_line_witness :
  safeTriples 2 2 [(0, 0, 5); (1, 1, 4); (0, 0, -3); (0, 0, 0)] = true
  /\ exists m,
       fromFile (matrixText 2 2 [(0, 0, 5); (1, 1, 4); (0, 0, -3); (0, 0, 0)])
       = Ok m
       /\ getElement m (Int 0) (Int 0)
          = Int (lastNonZero [(0, 0, 5); (1, 1, 4); (0, 0, -3); (0, 0, 0)] 0 0).
Proof.
  split; [reflexivity|].
  exact (fromFile_last_line 2 2 [(0, 0, 5); (1, 1, 4); (0, 0, -3); (0, 0, 0)]
           0 0 eq_refl eq_refl eq_refl).
Defined.

Lemma build_entries (rows cols : value) (l : list (Z * Z * Z)) (acc : Map.t) :
  forallb (fun e => let '(_, _, v) := e in negb (v =? 0)) l = true ->
  NoDup (map fst (acc ++ entriesOf l)%list) ->
  fold_left (fun m e => let '(r, c, v) := e in
                        setElement m (Int r) (Int c) (Int v))
            l (mkMatrix rows cols acc)
  = mkMatrix rows cols (acc ++ entriesOf l)%list.
Proof.
  revert acc. induction l as [|[[r c] v] l IH]; intros acc Hnz Hnd.
  - cbn. now rewrite List.app_nil_r.
  - cbn [forallb] in Hnz. apply andb_true_iff in Hnz as [Hv Hnz].
    apply negb_true_iff, Z.eqb_neq in Hv.
    cbn [fold_left entriesOf map] in *. unfold setElement at 2.
    rewrite (proj2 (strict_neq_Int v 0) Hv). cbn [numRows numCols elements].
    rewrite set_fresh.
    + fold (entriesOf l). rewrite IH; auto;
        rewrite <- List.app_assoc; [reflexivity | exact Hnd].
    + rewrite List.map_app in Hnd. cbn [map fst] in Hnd.
      apply NoDup_remove_2 in Hnd. intro Hin. apply Hnd, in_or_app. now left.
Qed.

(** X18. A file of safe integers that names every position once, with
    non-zero values, is a fixed point: parsing it gives exactly its
    entries, in file order, and serializing the parsed matrix gives the
    text back. *)
Theorem serialize_fromFile (rows cols : Z) (l : list (Z * Z * Z)) :
  safeTriples rows cols l = true ->
  distinctKeys (entriesOf l) = true ->
  forallb (fun e => let '(_, _, v) := e in negb (v =? 0)) l = true ->
  exists m,
    fromFile (matrixText rows cols l) = Ok m
    /\ elements m = entriesOf l
    /\ serialize m = matrixText rows cols l.
Proof.
  intros H Hd Hnz. apply safeTriples_plain in H. exists (build rows cols l).
  split; [now apply fromFile_matrixText|].
  assert (Hb : build rows cols l
               = mkMatrix (Int rows) (Int cols) (entriesOf l)).
  { unfold build, new, Map.empty.
    rewrite build_entries; auto. now apply distinctKeys_NoDup. }
  rewrite Hb. split; [reflexivity|].
  unfold serialize, matrixText. cbn [numRows numCols elements].
  f_equal. cbn [List.app]. do 2 f_equal. unfold entriesOf. rewrite map_map.
  unfold plainTriples in H. apply andb_true_iff in H as [_ Hl].
  apply map_ext_in. intros [[r c] v] Hin.
  rewrite forallb_forall in Hl. specialize (Hl _ Hin). cbn in Hl.
  apply andb_true_iff in Hl as [Hl _]. apply andb_true_iff in Hl as [Hr Hc].
  now apply elementLine_canonical.
Qed.

Lemma serialize_fromFile_witness :
  safeTriples 3 3 [(0, 2, 5); (1, 1, -4); (2, 0, 12)] = true
  /\ distinctKeys (entriesOf [(0, 2, 5); (1, 1, -4); (2, 0, 12)]) = true
  /\ exists m,
       fromFile (matrixText 3 3 [(0, 2, 5); (1, 1, -4); (2, 0, 12)]) = Ok m
       /\ elements m = entriesOf [(0, 2, 5); (1, 1, -4); (2, 0, 12)]
       /\ serialize m = matrixText 3 3 [(0, 2, 5); (1, 1, -4); (2, 0, 12)].
Proof.
  split; [reflexivity|]. split; [reflexivity|].
  exact (serialize_fromFile 3 3 [(0, 2, 5); (1, 1, -4); (2, 0, 12)]
           eq_refl eq_refl eq_refl).
Defined.
